(** * tabutils: a shallow embedding of [tabutils/io.py] and
    [tabutils/typetools.py] (Python 2), with the properties of the
    specification stated and settled over it.

    Conventions.  A Python call that may raise is a [Py.result]; a generator
    is a [Py.run]: the values it yields, in order, and the exception that
    stopped it, if any.  Mutable objects (the stream adapter, files) are
    threaded explicitly: an operation returns the object after the call.
    Code of other libraries (chardet, xlrd, ijson, the codecs) is taken as
    Section variables. *)

From stdpp Require Import gmap strings list pretty.
From Stdlib Require Import ZArith QArith Lia Strings.Byte.

Local Open Scope string_scope.
Local Open Scope list_scope.
Local Open Scope Z_scope.

(** ** The Python runtime the sources rely on *)

Module Py.

(** The exception classes raised or caught by the modelled code. *)
Inductive exn_class : Type :=
| BaseException
| Exception
| StandardError
| LookupError
| KeyError
| IndexError
| TypeError
| AttributeError
| ValueError
| UnicodeError
| UnicodeDecodeError
| EnvironmentError
| IOError
| StopIteration.

#[global] Instance exn_class_eq_dec : EqDecision exn_class.
Proof. solve_decision. Defined.

(** The direct base class in Python 2's hierarchy. *)
Definition base (c : exn_class) : option exn_class :=
  match c with
  | BaseException => None
  | Exception => Some BaseException
  | StandardError => Some Exception
  | StopIteration => Some Exception
  | LookupError => Some StandardError
  | KeyError => Some LookupError
  | IndexError => Some LookupError
  | TypeError => Some StandardError
  | AttributeError => Some StandardError
  | ValueError => Some StandardError
  | UnicodeError => Some ValueError
  | UnicodeDecodeError => Some UnicodeError
  | EnvironmentError => Some StandardError
  | IOError => Some EnvironmentError
  end.

Fixpoint ancestor (fuel : nat) (c d : exn_class) : bool :=
  bool_decide (c = d) ||
  match fuel with
  | O => false
  | S k => match base c with
           | Some b => ancestor k b d
           | None => false
           end
  end.

(** [issubclass c d]: what [except d] tests on an exception of class [c].
    The hierarchy is six levels deep. *)
Definition issubclass (c d : exn_class) : bool := ancestor 6 c d.

Record exn : Type := mk_exn { cls : exn_class; message : string }.

#[global] Instance exn_eq_dec : EqDecision exn.
Proof. solve_decision. Defined.

Definition isinstance (e : exn) (d : exn_class) : bool := issubclass (cls e) d.

Inductive result (A : Type) : Type :=
| Ok (a : A)
| Raise (e : exn).
Arguments Ok {A} a.
Arguments Raise {A} e.

(** A generator consumed to its end: the values yielded, then [None] for a
    normal end or [Some e] for the exception that escaped it. *)
Record run (R : Type) : Type := mk_run { yielded : list R; ending : option exn }.
Arguments mk_run {R} yielded ending.
Arguments yielded {R} r.
Arguments ending {R} r.

(** [enumerate]: pair every element with its zero-based index. *)
Definition enumerate {A : Type} (l : list A) : list (nat * A) := imap (fun i x => (i, x)) l.

(** Python's [xs[n:]] for an integer [n]: a negative [n] counts from the end. *)
Definition slice_from {A : Type} (n : Z) (xs : list A) : list A :=
  if 0 <=? n then drop (Z.to_nat n) xs
  else drop (Z.to_nat (Z.of_nat (length xs) + n)) xs.

(** [itertools.islice(xs, n)] on the elements still to come: the elements
    taken and those left; a negative [n] is a [ValueError]. *)
Definition islice {A : Type} (xs : list A) (n : Z) : option (list A * list A) :=
  if n <? 0 then None else Some (take (Z.to_nat n) xs, drop (Z.to_nat n) xs).

Definition islice_error : exn :=
  mk_exn ValueError "Stop argument for islice() must be None or an integer: 0 <= x <= maxint.".

(** The error kinds of the specification (its section 7), by the class of
    the exception the sources raise: a failed lookup or a missing file is
    NotFound, a [TypeError] is InvalidInput, a [ValueError] is
    Misconfiguration. *)
Inductive error_kind : Type :=
| NotFound
| InvalidInput
| Misconfiguration.

Definition spec_error_kind (e : exn) : option error_kind :=
  if isinstance e LookupError || isinstance e EnvironmentError then Some NotFound
  else if isinstance e TypeError then Some InvalidInput
  else if isinstance e ValueError then Some Misconfiguration
  else None.

(** The longest prefix whose elements satisfy [p], and the rest. *)
Fixpoint span {A : Type} (p : A -> bool) (xs : list A) : list A * list A :=
  match xs with
  | [] => ([], [])
  | x :: xs' => if p x then let '(a, b) := span p xs' in (x :: a, b) else ([], xs)
  end.

(** The UTF-8 codec, for one code point.  The package constant [ENCODING]
    is defined outside the two modules; the comment at io.py line 184 names
    utf-8, and the examples below use this codec where a concrete one is
    needed. *)
Definition byte_of_N (n : N) : Byte.byte :=
  match Byte.of_N n with Some b => b | None => x00%byte end.

Definition utf8_encode (c : N) : list Byte.byte :=
  (if c <? 128 then [byte_of_N c]
   else if c <? 2048 then [byte_of_N (192 + c / 64); byte_of_N (128 + c mod 64)]
   else if c <? 65536 then
     [byte_of_N (224 + c / 4096); byte_of_N (128 + (c / 64) mod 64); byte_of_N (128 + c mod 64)]
   else
     [byte_of_N (240 + c / 262144); byte_of_N (128 + (c / 4096) mod 64);
      byte_of_N (128 + (c / 64) mod 64); byte_of_N (128 + c mod 64)])%N.

Definition utf8 (cs : list N) : list Byte.byte := concat (map utf8_encode cs).

(** The code points of an ASCII literal. *)
Definition text (s : string) : list N := map Byte.to_N (String.list_byte_of_string s).

End Py.

Import Py.

#[global] Instance byte_eq_dec : EqDecision Byte.byte := Byte.byte_eq_dec.

(** ** [IterStringIO]: the lazy stream adapter (io.py, lines 56-148) *)

Module IterStringIO.

(** What the lookback deque [self.last] holds: the integers obtained by
    iterating over a returned bytearray, and the text ['\n'] that [_read]
    appends after every call. *)
Inductive last_elem : Type :=
| LByte (b : Byte.byte)
| LNewline.

#[global] Instance last_elem_eq_dec : EqDecision last_elem.
Proof. solve_decision. Defined.

(** What the pending iterator [self.iter] yields: a character of the input
    encoded with [ENCODING], or an element of [self.last] put back by [seek]. *)
Inductive elem : Type :=
| Enc (bs : list Byte.byte)
| Replay (e : last_elem).

#[global] Instance elem_eq_dec : EqDecision elem.
Proof. solve_decision. Defined.

Record t : Type := mk {
  iter : list elem;
  last : list last_elem;
  bufsize : nat;
  pos : Z
}.

Definition set_iter (st : t) (xs : list elem) : t :=
  {| iter := xs; last := last st; bufsize := bufsize st; pos := pos st |}.

(** [s not in newlines] with [newlines = {'\n', '\r', '\r\n'}]: an encoded
    element equal to one of the three, or the replayed text ['\n']; an
    integer is never equal to a string. *)
Definition is_newline (e : elem) : bool :=
  match e with
  | Enc bs => bool_decide (bs = [x0a]) || bool_decide (bs = [x0d]) || bool_decide (bs = [x0d; x0a])
  | Replay LNewline => true
  | Replay (LByte _) => false
  end%byte.

(** Modelled from the spec: [fntools.byte] (section 4.1), which assembles an
    iterable of single characters or bytes into one contiguous byte sequence. *)
Definition byte (xs : list elem) : list Byte.byte :=
  concat (map (fun e => match e with
                        | Enc bs => bs
                        | Replay (LByte b) => [b]
                        | Replay LNewline => [x0a%byte]
                        end) xs).

(** [collections.deque] with [maxlen]: appending to a full deque discards
    from the left. *)
Definition deque_append {A : Type} (maxlen : nat) (d : list A) (x : A) : list A :=
  let d' := d ++ [x] in drop (length d' - maxlen) d'.

Definition deque_extend {A : Type} (maxlen : nat) (d : list A) (xs : list A) : list A :=
  foldl (deque_append maxlen) d xs.

Section Encoding.

(** A character of the input is a Unicode code point; [encode] is
    [s.encode(ENCODING)] for a one-character string. *)
Variable encode : N -> list Byte.byte.

(** [_chain]: drop the empty fragments, then flatten. *)
Definition _chain {A : Type} (iterable : list (list A)) : list A :=
  concat (filter (fun s => s <> []) iterable).

Definition _encode (chained : list N) : list elem := map (fun s => Enc (encode s)) chained.

Definition init (iterable : list (list N)) (bufsize : nat) : t :=
  {| iter := _encode (_chain iterable); last := []; bufsize := bufsize; pos := 0 |}.

(** [write]: the new fragments are chained behind the pending input. *)
Definition write (st : t) (iterable : list (list N)) : t :=
  set_iter st (_chain [iter st; _encode (_chain iterable)]).

End Encoding.

(** An iterable handed to [_read], seen from the stream: what it would
    yield, what is left in [self.iter] after [islice] took [k] elements of
    it, and what is left once it is exhausted. *)
Record iterable : Type := mk_iterable {
  yields : list elem;
  rest_if_cut : nat -> list elem;
  rest_if_drained : list elem
}.

(** [self.iter] itself. *)
Definition whole (xs : list elem) : iterable :=
  {| yields := xs; rest_if_cut := fun k => drop k xs; rest_if_drained := [] |}.

(** [self.lines.next()]: a fresh [itertools.groupby] over [self.iter], keyed
    by [s not in newlines]; the first group whose key is true.  [groupby]
    reads one element ahead: the leading newline elements and the first
    element of the line are consumed before the group is returned, and the
    element that ends the group is consumed when the group is exhausted. *)
Definition lines_next (xs : list elem) : option iterable :=
  match (span is_newline xs).2 with
  | [] => None
  | x :: xs' =>
      let '(line, after) := span (fun e => negb (is_newline e)) xs' in
      Some {| yields := x :: line;
              rest_if_cut := fun k => drop (k - 1) line ++ after;
              rest_if_drained := tail after |}
  end.

(** The body of [_read] once the elements are chosen. *)
Definition commit (st : t) (taken : list elem) (rest : list elem) : list Byte.byte * t :=
  let b := byte taken in
  let last1 := deque_extend (bufsize st) (last st) (map LByte b) in
  (b, {| iter := rest;
         last := deque_append (bufsize st) last1 LNewline;
         bufsize := bufsize st;
         pos := pos st + Z.of_nat (length b) |}).

(** [_read(iterable, n)]: [it.islice(iterable, n) if n else iterable]. *)
Definition _read (st : t) (src : iterable) (n : option Z) : result (list Byte.byte) * t :=
  match n with
  | None | Some 0 =>
      let '(b, st') := commit st (yields src) (rest_if_drained src) in (Ok b, st')
  | Some n =>
      match islice (yields src) n with
      | None => (Raise islice_error, set_iter st (rest_if_cut src 0))
      | Some (taken, _) =>
          let rest := if (Z.to_nat n <=? length (yields src))%nat
                      then rest_if_cut src (Z.to_nat n)
                      else rest_if_drained src in
          let '(b, st') := commit st taken rest in (Ok b, st')
      end
  end.

Definition read (st : t) (n : option Z) : result (list Byte.byte) * t :=
  _read st (whole (iter st)) n.

Definition stop_iteration : exn := mk_exn StopIteration "".

Definition readline (st : t) (n : option Z) : result (list Byte.byte) * t :=
  match lines_next (iter st) with
  | None => (Raise stop_iteration, set_iter st [])
  | Some g => _read st g n
  end.

(** [__next__] *)
Definition next (st : t) : result (list Byte.byte) * t := readline st None.

Definition seek (st : t) (n : Z) : t :=
  {| iter := map Replay (slice_from n (last st)) ++ iter st;
     last := last st;
     bufsize := bufsize st;
     pos := n |}.

Definition tell (st : t) : Z := pos st.

(** The last [m] elements of a list: what a deque of capacity [m] retains. *)
Definition lastn {A : Type} (m : nat) (l : list A) : list A := drop (length l - m) l.

(** *** The deque keeps the tail of everything appended *)

Lemma lastn_app_lastn {A : Type} (m : nat) (l xs : list A) :
  lastn m (lastn m l ++ xs) = lastn m (l ++ xs).
Proof.
  unfold lastn. rewrite !length_app, length_drop.
  destruct (decide (length l <= m)%nat) as [Hle | Hgt].
  - replace (length l - m)%nat with 0%nat by lia. simpl.
    f_equal. lia.
  - replace (length l - (length l - m) + length xs - m)%nat with (length xs) by lia.
    replace (length l + length xs - m)%nat with ((length l - m) + length xs)%nat by lia.
    rewrite <- (drop_drop (l ++ xs)).
    rewrite (drop_app_le l xs (length l - m)) by lia.
    reflexivity.
Qed.

Lemma deque_append_lastn {A : Type} (m : nat) (d : list A) (x : A) :
  deque_append m d x = lastn m (d ++ [x]).
Proof. reflexivity. Qed.

Lemma deque_extend_lastn {A : Type} (m : nat) (xs d : list A) :
  lastn m (deque_extend m d xs) = lastn m (d ++ xs).
Proof.
  revert d. induction xs as [| x xs IH]; intros d; simpl.
  - by rewrite app_nil_r.
  - unfold deque_extend in *. simpl. rewrite IH, deque_append_lastn.
    rewrite lastn_app_lastn, <- app_assoc. reflexivity.
Qed.

Lemma commit_last (st : t) (taken rest : list elem) :
  last (commit st taken rest).2 =
  lastn (bufsize st) (last st ++ map LByte (byte taken) ++ [LNewline]).
Proof.
  unfold commit. simpl. rewrite deque_append_lastn.
  rewrite <- (lastn_app_lastn _ (deque_extend _ _ _)), deque_extend_lastn.
  rewrite lastn_app_lastn, <- app_assoc. reflexivity.
Qed.

Lemma lastn_snoc {A : Type} (m : nat) (l : list A) (x : A) :
  (0 < m)%nat -> exists l', lastn m (l ++ [x]) = l' ++ [x].
Proof.
  intros Hm. unfold lastn. rewrite length_app. simpl.
  exists (drop (length l + 1 - m) l).
  rewrite drop_app_le by lia. reflexivity.
Qed.

(** Every successful [_read] goes through [commit]. *)
Lemma _read_ok (st : t) (src : iterable) (n : option Z) (b : list Byte.byte) (st' : t) :
  _read st src n = (Ok b, st') ->
  exists taken rest, b = byte taken /\ st' = (commit st taken rest).2.
Proof.
  unfold _read. intros H.
  destruct n as [[| p | p] |].
  - inversion H; subst. eauto.
  - destruct (islice (yields src) (Z.pos p)) as [[taken left] |]; [| discriminate].
    inversion H; subst. eauto.
  - destruct (islice (yields src) (Z.neg p)) as [[taken left] |]; [| discriminate].
    inversion H; subst. eauto.
  - inversion H; subst. eauto.
Qed.

Lemma slice_from_nat {A : Type} (k : nat) (xs : list A) :
  slice_from (Z.of_nat k) xs = drop k xs.
Proof.
  unfold slice_from. destruct (Z.leb_spec 0 (Z.of_nat k)); [| lia].
  by rewrite Nat2Z.id.
Qed.

(** C9.  [read(0)] is [read()]: the limit 0 is falsy, so [_read] takes the
    whole pending iterator.  The call returns the bytes of every pending
    element and leaves nothing pending; the result is empty only when the
    pending elements hold no byte at all. *)
Theorem read_zero_returns_all_pending (st : t) :
  read st (Some 0) = read st None /\
  (read st (Some 0)).1 = Ok (byte (iter st)) /\
  iter (read st (Some 0)).2 = [] /\
  (byte (iter st) <> [] -> (read st (Some 0)).1 <> Ok []).
Proof.
  split; [reflexivity |]. split; [reflexivity |]. split; [reflexivity |].
  intros Hne Heq. simpl in Heq. inversion Heq. contradiction.
Qed.

(** The docstring's stream: [read(0)] returns all eleven bytes. *)
Lemma read_zero_returns_all_pending_witness :
  let st := init utf8_encode [text "Hello World"] 4096 in
  (read st (Some 0)).1 = Ok (String.list_byte_of_string "Hello World") /\
  (read st (Some 0)).1 <> Ok [].
Proof.
  intros st.
  destruct (read_zero_returns_all_pending st) as (_ & Hall & _ & Hne).
  split; [exact Hall | apply Hne; discriminate].
Defined.

(** C10.  A [read] or [readline] that returns the bytes [b] moves the
    position reported by [tell] by exactly [length b], while the lookback
    deque receives the bytes of [b] followed by one newline element that the
    call did not consume (within the deque's capacity).  With a capacity of
    at least one, that newline is the newest retained element, so every
    [seek] to an offset inside the deque puts it back into the pending
    input. *)
Theorem read_moves_pos_by_length_and_buffers_newline
  (st st' : t) (n : option Z) (b : list Byte.byte) :
  read st n = (Ok b, st') \/ readline st n = (Ok b, st') ->
  tell st' = tell st + Z.of_nat (length b) /\
  last st' = lastn (bufsize st) (last st ++ map LByte b ++ [LNewline]) /\
  ((0 < bufsize st)%nat -> forall k : nat, (k < length (last st'))%nat ->
     Replay LNewline ∈ iter (seek st' (Z.of_nat k))).
Proof.
  intros H.
  assert (exists taken rest, b = byte taken /\ st' = (commit st taken rest).2)
    as (taken & rest & -> & ->).
  { destruct H as [H | H].
    - unfold read in H. eapply _read_ok; eauto.
    - unfold readline in H. destruct (lines_next (iter st)); [| discriminate].
      eapply _read_ok; eauto. }
  split; [reflexivity |]. split; [apply commit_last |].
  intros Hcap k Hk. rewrite commit_last in Hk.
  unfold seek. rewrite slice_from_nat, commit_last.
  rewrite !app_assoc in *.
  destruct (lastn_snoc (bufsize st) (last st ++ map LByte (byte taken)) LNewline Hcap)
    as [l' Hl'].
  rewrite Hl' in *. rewrite length_app in Hk. simpl in Hk.
  rewrite drop_app_le by lia. rewrite fmap_app.
  apply elem_of_app. left. apply elem_of_app. right. simpl. apply list_elem_of_singleton.
  reflexivity.
Qed.

(** The docstring's stream without any newline: after [read(1)] and
    [seek(0)] the pending input is the byte read, a newline that the input
    never held, and the unread rest. *)
Lemma read_moves_pos_by_length_and_buffers_newline_witness :
  let st := init utf8_encode [text "ab"] 4096 in
  let st' := (read st (Some 1)).2 in
  tell st' = 1 /\
  last st' = [LByte "a"%byte; LNewline] /\
  iter (seek st' 0) = [Replay (LByte "a"%byte); Replay LNewline; Enc ["b"%byte]] /\
  Replay LNewline ∈ iter (seek st' 0).
Proof.
  intros st st'.
  destruct (read_moves_pos_by_length_and_buffers_newline st st' (Some 1) ["a"%byte])
    as (Hpos & Hlast & Hseek); [left; reflexivity |].
  split; [exact Hpos |]. split; [exact Hlast |]. split; [reflexivity |].
  apply (Hseek ltac:(simpl; lia) 0%nat). simpl. lia.
Defined.

(** *** Further properties of the stream adapter *)

Lemma byte_app (xs ys : list elem) : byte (xs ++ ys) = byte xs ++ byte ys.
Proof. unfold byte. by rewrite map_app, concat_app. Qed.

Lemma length_lastn {A : Type} (m : nat) (l : list A) :
  length (lastn m l) = Nat.min m (length l).
Proof. unfold lastn. rewrite length_drop. lia. Qed.

Lemma span_app_id {A : Type} (p : A -> bool) (xs : list A) :
  (span p xs).1 ++ (span p xs).2 = xs.
Proof.
  induction xs as [| x xs IH]; simpl; [reflexivity |].
  destruct (p x); [| reflexivity].
  destruct (span p xs) as [a b]. simpl in *. by rewrite IH.
Qed.

(** [span] stops at the first element that fails the test. *)
Lemma span_prefix {A : Type} (p : A -> bool) (a b : list A) :
  forallb p a = true ->
  match b with [] => True | y :: _ => p y = false end ->
  span p (a ++ b) = (a, b).
Proof.
  intros Ha Hb. induction a as [| x a IH]; simpl in *.
  - destruct b as [| y b]; simpl; [reflexivity |]. by rewrite Hb.
  - apply andb_true_iff in Ha as [Hx Ha]. rewrite Hx, (IH Ha). reflexivity.
Qed.

(** The lookback deque never holds more than its capacity: after a
    successful [read] or [readline] it holds the bytes returned and one
    newline more, cut to the capacity. *)
Theorem lookback_bounded_by_bufsize (st st' : t) (n : option Z) (b : list Byte.byte) :
  read st n = (Ok b, st') \/ readline st n = (Ok b, st') ->
  length (last st') = Nat.min (bufsize st) (length (last st) + length b + 1) /\
  (length (last st') <= bufsize st')%nat.
Proof.
  intros H.
  assert (exists taken rest, b = byte taken /\ st' = (commit st taken rest).2)
    as (taken & rest & -> & ->).
  { destruct H as [H | H].
    - unfold read in H. eapply _read_ok; eauto.
    - unfold readline in H. destruct (lines_next (iter st)); [| discriminate].
      eapply _read_ok; eauto. }
  rewrite commit_last, length_lastn, !length_app, length_map. simpl. lia.
Qed.

Lemma lookback_bounded_by_bufsize_witness :
  let st := init utf8_encode [text "Hello World"] 4 in
  length (last (read st None).2) = 4%nat.
Proof.
  intros st.
  destruct (lookback_bounded_by_bufsize st (read st None).2 None
              (String.list_byte_of_string "Hello World")) as [Hlen _];
    [left; reflexivity |].
  exact Hlen.
Defined.

(** Reading with a limit and then reading the rest returns, together, every
    pending byte once and in order; nothing is left pending and the position
    has moved by the number of bytes. *)
Theorem read_in_two_steps_returns_everything (st : t) (n : Z) :
  0 <= n ->
  exists b1 st1 b2 st2,
    read st (Some n) = (Ok b1, st1) /\ read st1 None = (Ok b2, st2) /\
    b1 ++ b2 = byte (iter st) /\ iter st2 = [] /\
    tell st2 = tell st + Z.of_nat (length (byte (iter st))).
Proof.
  intros Hn. unfold read, _read, whole, islice. simpl.
  destruct n as [| p | p]; [| | lia].
  - do 4 eexists. repeat split; simpl.
    + by rewrite app_nil_r.
    + unfold tell. simpl. lia.
  - destruct (Z.ltb_spec (Z.pos p) 0) as [Hlt | _]; [lia |].
    do 4 eexists. repeat split; simpl.
    + rewrite <- byte_app.
      destruct (Nat.leb_spec (Z.to_nat (Z.pos p)) (length (iter st))) as [Hle | Hgt].
      * by rewrite take_drop.
      * rewrite take_ge by lia. by rewrite app_nil_r.
    + unfold tell. simpl. rewrite <- Z.add_assoc, <- Nat2Z.inj_add, <- length_app, <- byte_app.
      destruct (Nat.leb_spec (Z.to_nat (Z.pos p)) (length (iter st))) as [Hle | Hgt].
      * by rewrite take_drop.
      * rewrite take_ge by lia. by rewrite app_nil_r.
Qed.

Lemma read_in_two_steps_returns_everything_witness :
  exists b1 st1 b2 st2,
    read (init utf8_encode [text "Hello World"] 4096) (Some 5) = (Ok b1, st1) /\
    read st1 None = (Ok b2, st2) /\
    b1 ++ b2 = String.list_byte_of_string "Hello World".
Proof.
  destruct (read_in_two_steps_returns_everything
              (init utf8_encode [text "Hello World"] 4096) 5 ltac:(lia))
    as (b1 & st1 & b2 & st2 & H1 & H2 & H3 & _).
  exists b1, st1, b2, st2. repeat split; assumption.
Defined.

(** A negative limit makes [read] fail with the [ValueError] of [islice];
    the stream is left exactly as it was. *)
Theorem read_negative_limit_fails_cleanly (st : t) (n : Z) :
  n < 0 -> read st (Some n) = (Raise islice_error, st) /\ cls islice_error = ValueError.
Proof.
  intros Hn. unfold read, _read, islice.
  destruct n as [| p | p]; try lia.
  destruct (Z.ltb_spec (Z.neg p) 0) as [_ | Hge]; [| lia].
  destruct st. split; reflexivity.
Qed.

Lemma read_negative_limit_fails_cleanly_witness :
  (read (init utf8_encode [text "ab"] 4096) (Some (-1))).2 = init utf8_encode [text "ab"] 4096.
Proof.
  destruct (read_negative_limit_fails_cleanly (init utf8_encode [text "ab"] 4096) (-1)
              ltac:(lia)) as [H _].
  by rewrite H.
Defined.

(** With [readline] the same failure is not clean: [groupby] has already
    taken the first element of the line out of the stream, and that element
    is neither returned nor buffered. *)
Theorem readline_negative_limit_loses_an_element (st : t) (n : Z) (x : elem) (rest : list elem) :
  n < 0 -> iter st = x :: rest -> is_newline x = false ->
  exists st', readline st (Some n) = (Raise islice_error, st') /\
              iter st' = rest /\ last st' = last st /\ tell st' = tell st.
Proof.
  intros Hn Hiter Hx. unfold readline, lines_next. rewrite Hiter. simpl. rewrite Hx. simpl.
  pose proof (span_app_id (fun e => negb (is_newline e)) rest) as Hspan.
  destruct (span (fun e => negb (is_newline e)) rest) as [line after]. simpl in Hspan.
  unfold _read, islice. simpl.
  destruct n as [| p | p]; try lia.
  destruct (Z.ltb_spec (Z.neg p) 0) as [_ | Hge]; [| lia].
  eexists. split; [reflexivity |]. simpl. auto.
Qed.

Lemma readline_negative_limit_loses_an_element_witness :
  exists st', readline (init utf8_encode [text "ab"] 4096) (Some (-1)) = (Raise islice_error, st')
              /\ iter st' = [Enc ["b"%byte]].
Proof.
  destruct (readline_negative_limit_loses_an_element (init utf8_encode [text "ab"] 4096) (-1)
              (Enc ["a"%byte]) [Enc ["b"%byte]] ltac:(lia) eq_refl eq_refl)
    as (st' & H1 & H2 & _).
  exists st'. split; assumption.
Defined.

Lemma readline_line (st : t) (newlines line rest : list elem) (x nl : elem) :
  iter st = newlines ++ (x :: line) ++ nl :: rest ->
  forallb is_newline newlines = true ->
  forallb (fun e => negb (is_newline e)) (x :: line) = true ->
  is_newline nl = true ->
  readline st None = (Ok (byte (x :: line)), (commit st (x :: line) rest).2).
Proof.
  intros Hiter Hnls Hline Hnl. unfold readline, lines_next. rewrite Hiter.
  rewrite (span_prefix is_newline newlines ((x :: line) ++ nl :: rest) Hnls).
  2: { simpl in *. apply andb_true_iff in Hline as [Hx _]. by apply negb_true_iff. }
  simpl in Hline. apply andb_true_iff in Hline as [_ Hline]. simpl.
  rewrite (span_prefix (fun e => negb (is_newline e)) line (nl :: rest) Hline).
  2: { by rewrite Hnl. }
  reflexivity.
Qed.

(** [readline()] skips the newline elements in front, returns the bytes of
    the elements up to the next newline element, and takes that one newline
    out of the stream with them. *)
Theorem readline_returns_line_and_consumes_terminator
    (st : t) (newlines line rest : list elem) (x nl : elem) :
  iter st = newlines ++ (x :: line) ++ nl :: rest ->
  forallb is_newline newlines = true ->
  forallb (fun e => negb (is_newline e)) (x :: line) = true ->
  is_newline nl = true ->
  exists st', readline st None = (Ok (byte (x :: line)), st') /\ iter st' = rest.
Proof.
  intros Hiter Hnls Hline Hnl. eexists. split.
  - by apply (readline_line st newlines line rest x nl).
  - reflexivity.
Qed.

Lemma readline_returns_line_and_consumes_terminator_witness :
  exists st',
    readline (init utf8_encode [[10%N]; text "ab"; [10%N]; text "cd"] 4096) None
    = (Ok ["a"; "b"]%byte, st') /\ iter st' = [Enc ["c"%byte]; Enc ["d"%byte]].
Proof.
  apply (readline_returns_line_and_consumes_terminator
           (init utf8_encode [[10%N]; text "ab"; [10%N]; text "cd"] 4096)
           [Enc [x0a%byte]] [Enc ["b"%byte]] [Enc ["c"%byte]; Enc ["d"%byte]]
           (Enc ["a"%byte]) (Enc [x0a%byte])); reflexivity.
Defined.

(** On a stream that holds newline elements only (or nothing), [readline]
    raises [StopIteration]; the elements are consumed, the position and the
    lookback deque are untouched. *)
Theorem readline_stops_on_newlines_only (st : t) (n : option Z) :
  forallb is_newline (iter st) = true ->
  readline st n = (Raise stop_iteration, set_iter st []).
Proof.
  intros H. unfold readline, lines_next.
  pose proof (span_prefix is_newline (iter st) [] H I) as Hspan.
  rewrite app_nil_r in Hspan. rewrite Hspan. reflexivity.
Qed.

Lemma readline_stops_on_newlines_only_witness :
  (readline (init utf8_encode [[10%N; 13%N]] 4096) None).1 = Raise stop_iteration.
Proof.
  by rewrite (readline_stops_on_newlines_only (init utf8_encode [[10%N; 13%N]] 4096) None eq_refl).
Defined.

(** *** [write], [seek] and [readlines] *)

Lemma concat_filter_nonempty {A : Type} (l : list (list A)) :
  concat (filter (fun s => s <> []) l) = concat l.
Proof.
  induction l as [| x l IH]; [reflexivity |].
  rewrite filter_cons. destruct (decide (x <> [])) as [Hne | Heq]; simpl.
  - by rewrite IH.
  - destruct x; [exact IH | exfalso; apply Heq; discriminate].
Qed.

(** [write] puts the characters of the new fragments, encoded, behind the
    pending input (empty fragments add nothing) and touches neither the
    position nor the lookback deque: a following [read()] returns the old
    pending bytes followed by the encoded new text. *)
Theorem write_appends_encoded_fragments (encode : N -> list Byte.byte) (st : t)
    (fragments : list (list N)) :
  iter (write encode st fragments) = iter st ++ map (fun c => Enc (encode c)) (concat fragments) /\
  last (write encode st fragments) = last st /\
  tell (write encode st fragments) = tell st /\
  (read (write encode st fragments) None).1
  = Ok (byte (iter st) ++ concat (map encode (concat fragments))).
Proof.
  assert (iter (write encode st fragments)
          = iter st ++ map (fun c => Enc (encode c)) (concat fragments)) as Hiter.
  { unfold write, _chain at 1, _encode, _chain. simpl.
    rewrite concat_filter_nonempty, (concat_filter_nonempty fragments). simpl.
    by rewrite app_nil_r. }
  repeat split; [exact Hiter |].
  change ((read (write encode st fragments) None).1)
    with (Ok (A := list Byte.byte) (byte (iter (write encode st fragments)))).
  rewrite Hiter, byte_app. do 2 f_equal. unfold byte. rewrite map_map. reflexivity.
Qed.

Lemma byte_replayed (b : list Byte.byte) : byte (map Replay (map LByte b)) = b.
Proof. induction b as [| x b IH]; [reflexivity |]. unfold byte in *. simpl. by rewrite IH. Qed.

Lemma replayed_bytes_are_no_newlines (b : list Byte.byte) :
  forallb (fun e => negb (is_newline e)) (map Replay (map LByte b)) = true.
Proof. induction b as [| x b IH]; [reflexivity | exact IH]. Qed.

(** After a [readline] whose bytes [b] (at least one) and newline still fit
    in the lookback deque, [seek] to the offset at which they were stored
    followed by [next()] returns [b] again, and the pending input is back
    where it was after the first call. *)
Theorem seek_back_rereads_the_line (st st' : t) (n : option Z) (b : list Byte.byte) :
  readline st n = (Ok b, st') ->
  b <> [] ->
  (length (last st) + length b + 1 <= bufsize st)%nat ->
  exists st'',
    next (seek st' (Z.of_nat (length (last st)))) = (Ok b, st'') /\
    iter st'' = iter st' /\
    tell st'' = Z.of_nat (length (last st)) + Z.of_nat (length b).
Proof.
  intros Hread Hne Hfit.
  assert (last st' = last st ++ map LByte b ++ [LNewline]) as Hlast.
  { unfold readline in Hread. destruct (lines_next (iter st)); [| discriminate].
    apply _read_ok in Hread as (taken & rest & -> & ->).
    rewrite commit_last. unfold lastn.
    replace (length (last st ++ map LByte (byte taken) ++ [LNewline]) - bufsize st)%nat
      with 0%nat; [reflexivity |].
    rewrite !length_app, length_map. simpl. lia. }
  destruct b as [| b0 b]; [contradiction |].
  pose proof (readline_line (seek st' (Z.of_nat (length (last st)))) []
                (map Replay (map LByte b)) (iter st') (Replay (LByte b0)) (Replay LNewline))
    as Hline.
  assert (byte (Replay (LByte b0) :: map Replay (map LByte b)) = b0 :: b) as Hbytes
    by apply (byte_replayed (b0 :: b)).
  exists (commit (seek st' (Z.of_nat (length (last st))))
            (Replay (LByte b0) :: map Replay (map LByte b)) (iter st')).2.
  split; [| split; [reflexivity |]].
  - unfold next. rewrite Hline.
    + by rewrite Hbytes.
    + unfold seek. cbn [iter]. rewrite slice_from_nat, Hlast, drop_app_length.
      rewrite fmap_app. simpl. rewrite <- app_assoc. reflexivity.
    + reflexivity.
    + simpl. apply replayed_bytes_are_no_newlines.
    + reflexivity.
  - unfold tell, commit. cbn [snd pos seek]. by rewrite Hbytes.
Qed.

Lemma seek_back_rereads_the_line_witness :
  let st := init utf8_encode [text "line one"; [10%N]; text "line two"] 4096 in
  exists st'',
    next (seek (readline st None).2 0) = (Ok (String.list_byte_of_string "line one"), st'') /\
    tell st'' = 8.
Proof.
  intros st.
  destruct (seek_back_rereads_the_line st (readline st None).2 None
              (String.list_byte_of_string "line one") eq_refl ltac:(discriminate)
              ltac:(simpl; lia)) as (st'' & H1 & _ & H3).
  exists st''. split; [exact H1 | exact H3].
Defined.

(** [readlines()], consumed to its end: [_read] on every group of
    [self.lines] until it is exhausted.  A call consumes at least one
    element, so [S (length (iter st))] rounds are enough. *)
Fixpoint readlines_from (fuel : nat) (st : t) : list (list Byte.byte) * t :=
  match fuel with
  | O => ([], st)
  | S k =>
      match readline st None with
      | (Ok b, st') => let '(bs, st'') := readlines_from k st' in (b :: bs, st'')
      | (Raise _, st') => ([], st')
      end
  end.

Definition readlines (st : t) : list (list Byte.byte) * t :=
  readlines_from (S (length (iter st))) st.

Lemma span_spec {A : Type} (p : A -> bool) (xs : list A) :
  forallb p (span p xs).1 = true /\
  match (span p xs).2 with [] => True | y :: _ => p y = false end.
Proof.
  induction xs as [| x xs IH]; simpl; [auto |].
  destruct (p x) eqn:Hx; simpl; [| auto].
  destruct (span p xs) as [a b]. simpl in *. rewrite Hx. exact IH.
Qed.

Lemma filter_all {A : Type} (p : A -> bool) (xs : list A) :
  forallb p xs = true -> filter (fun x => p x = true) xs = xs.
Proof.
  induction xs as [| x xs IH]; [reflexivity |]. simpl.
  intros [Hx Hxs]%andb_true_iff. rewrite filter_cons_True by exact Hx. by rewrite IH.
Qed.

Lemma filter_none {A : Type} (p : A -> bool) (xs : list A) :
  forallb (fun x => negb (p x)) xs = true -> filter (fun x => p x = true) xs = [].
Proof.
  induction xs as [| x xs IH]; [reflexivity |]. simpl.
  intros [Hx Hxs]%andb_true_iff. apply negb_true_iff in Hx.
  rewrite filter_cons_False by (rewrite Hx; discriminate). by apply IH.
Qed.

Lemma readlines_from_spec (fuel : nat) :
  forall st : t,
  (length (iter st) < fuel)%nat ->
  concat (readlines_from fuel st).1
  = byte (filter (fun e => negb (is_newline e) = true) (iter st)) /\
  iter (readlines_from fuel st).2 = [].
Proof.
  induction fuel as [| fuel IH]; intros st Hfuel; [lia |].
  cbn [readlines_from]. unfold readline, lines_next.
  pose proof (span_app_id is_newline (iter st)) as Hsplit.
  pose proof (span_spec is_newline (iter st)) as [Hnls Hhead].
  destruct (span is_newline (iter st)) as [nls rest1]. cbn [fst snd] in *.
  assert (filter (fun e => negb (is_newline e) = true) nls = []) as Hnone.
  { apply filter_none. clear -Hnls. induction nls as [| y nls IH]; [reflexivity |].
    simpl in *. apply andb_true_iff in Hnls as [Hy Hnls]. rewrite Hy. simpl. auto. }
  destruct rest1 as [| x xs].
  - simpl. rewrite <- Hsplit, app_nil_r, Hnone. auto.
  - pose proof (span_app_id (fun e => negb (is_newline e)) xs) as Hsplit2.
    pose proof (span_spec (fun e => negb (is_newline e)) xs) as [Hline Hhead2].
    destruct (span (fun e => negb (is_newline e)) xs) as [line after]. cbn [fst snd] in *.
    cbn [_read yields rest_if_drained].
    set (st1 := (commit st (x :: line) (tail after)).2).
    change (commit st (x :: line) (tail after)) with (byte (x :: line), st1).
    assert (length (iter st1) < fuel)%nat as Hshort.
    { cbn. rewrite <- Hsplit, <- Hsplit2 in Hfuel. rewrite !length_app in Hfuel. simpl in Hfuel.
      rewrite length_app in Hfuel. destruct after; simpl in *; lia. }
    destruct (IH st1 Hshort) as [IHc IHi].
    destruct (readlines_from fuel st1) as [bs st2]. cbn [fst snd concat] in *.
    split; [| exact IHi].
    rewrite IHc. rewrite <- Hsplit, <- Hsplit2.
    rewrite filter_app, Hnone. cbn [app].
    rewrite filter_cons_True by (by rewrite Hhead).
    rewrite filter_app, (filter_all _ line Hline).
    change (iter st1) with (tail after).
    rewrite <- byte_app. f_equal. cbn [app]. f_equal. f_equal.
    destruct after as [| nl after]; [reflexivity |].
    cbn [tail]. rewrite filter_cons_False; [reflexivity |].
    rewrite Hhead2. discriminate.
Qed.

(** The pending elements cut at every newline element: the pieces before
    the first newline element, between two of them, and behind the last (a
    piece is empty where two newline elements touch). *)
Fixpoint split_at_newlines (xs : list elem) : list (list elem) :=
  match xs with
  | [] => [[]]
  | x :: xs' =>
      if is_newline x then [] :: split_at_newlines xs'
      else match split_at_newlines xs' with
           | piece :: pieces => (x :: piece) :: pieces
           | [] => [[x]]
           end
  end.

(** The lines: the pieces that are not empty. *)
Definition lines_of (xs : list elem) : list (list elem) :=
  filter (fun piece => piece <> []) (split_at_newlines xs).

Lemma lines_of_newlines (nls xs : list elem) :
  forallb is_newline nls = true -> lines_of (nls ++ xs) = lines_of xs.
Proof.
  induction nls as [| n nls IH]; [reflexivity |]. simpl.
  intros [Hn Hnls]%andb_true_iff. unfold lines_of in *. cbn [split_at_newlines].
  rewrite Hn, filter_cons_False by (intros H; by apply H). by apply IH.
Qed.

Lemma split_at_newlines_cons (xs : list elem) :
  exists piece pieces, split_at_newlines xs = piece :: pieces.
Proof.
  induction xs as [| x xs (piece & pieces & IH)]; cbn [split_at_newlines]; [eauto |].
  destruct (is_newline x); [eauto |]. rewrite IH. eauto.
Qed.

Lemma split_at_newlines_line (l ys : list elem) :
  forallb (fun e => negb (is_newline e)) l = true ->
  split_at_newlines (l ++ ys)
  = match split_at_newlines ys with
    | piece :: pieces => (l ++ piece) :: pieces
    | [] => [l]
    end.
Proof.
  destruct (split_at_newlines_cons ys) as (piece & pieces & Hys).
  induction l as [| x l IH]; simpl.
  - intros _. by rewrite Hys.
  - intros [Hx Hl]%andb_true_iff. apply negb_true_iff in Hx. rewrite Hx, (IH Hl).
    by rewrite Hys.
Qed.

(** A line, the newline element behind it (if any), and what follows. *)
Lemma lines_of_line (x : elem) (line after : list elem) :
  forallb (fun e => negb (is_newline e)) (x :: line) = true ->
  match after with [] => True | nl :: _ => is_newline nl = true end ->
  lines_of ((x :: line) ++ after) = (x :: line) :: lines_of (tail after).
Proof.
  intros Hline Hafter. unfold lines_of. rewrite (split_at_newlines_line _ _ Hline).
  destruct after as [| nl after'].
  - cbn [split_at_newlines tail]. rewrite app_nil_r.
    rewrite filter_cons_True by discriminate. reflexivity.
  - cbn [split_at_newlines tail]. rewrite Hafter, app_nil_r.
    rewrite filter_cons_True by discriminate. reflexivity.
Qed.

Lemma readline_spans (st : t) (nls xs line after : list elem) (x : elem) :
  span is_newline (iter st) = (nls, x :: xs) ->
  span (fun e => negb (is_newline e)) xs = (line, after) ->
  readline st None = (Ok (byte (x :: line)), (commit st (x :: line) (tail after)).2).
Proof. intros H1 H2. unfold readline, lines_next. rewrite H1. cbn [snd]. rewrite H2. reflexivity. Qed.

Lemma readlines_from_step (fuel : nat) (st st' : t) (b : list Byte.byte) :
  readline st None = (Ok b, st') ->
  (readlines_from (S fuel) st).1 = b :: (readlines_from fuel st').1.
Proof.
  intros H. cbn [readlines_from]. rewrite H. by destruct (readlines_from fuel st').
Qed.

Lemma readlines_from_lines (fuel : nat) :
  forall st : t,
  (length (iter st) < fuel)%nat ->
  (readlines_from fuel st).1 = map byte (lines_of (iter st)).
Proof.
  induction fuel as [| fuel IH]; intros st Hfuel; [lia |].
  pose proof (span_app_id is_newline (iter st)) as Hsplit.
  pose proof (span_spec is_newline (iter st)) as [Hnls Hhead].
  destruct (span is_newline (iter st)) as [nls rest1] eqn:Hspan. cbn [fst snd] in *.
  rewrite <- Hsplit, (lines_of_newlines nls rest1 Hnls).
  destruct rest1 as [| x xs].
  - cbn [readlines_from]. unfold readline, lines_next. rewrite Hspan. reflexivity.
  - pose proof (span_app_id (fun e => negb (is_newline e)) xs) as Hsplit2.
    pose proof (span_spec (fun e => negb (is_newline e)) xs) as [Hline Hhead2].
    destruct (span (fun e => negb (is_newline e)) xs) as [line after] eqn:Hspan2.
    cbn [fst snd] in *.
    rewrite (readlines_from_step fuel st _ _ (readline_spans st nls xs line after x Hspan Hspan2)).
    rewrite IH.
    + cbn [commit snd iter]. rewrite <- Hsplit2.
      change (x :: line ++ after) with ((x :: line) ++ after).
      rewrite lines_of_line; [reflexivity | |].
      * cbn [forallb]. by rewrite Hhead, Hline.
      * destruct after as [| nl after']; [exact I |]. by apply negb_false_iff.
    + cbn [commit snd iter]. rewrite <- Hsplit, <- Hsplit2 in Hfuel.
      rewrite !length_app in Hfuel. cbn [length] in Hfuel. rewrite length_app in Hfuel.
      destruct after; cbn [tail length] in *; lia.
Qed.

(** [readlines()] returns the lines one by one: the pending elements are
    cut at every newline element, the empty pieces are dropped, and each
    remaining piece is returned as the bytes of its elements.  Together
    the lines hold the bytes of every pending element that is not a newline
    element, in order, and nothing is left pending. *)
Theorem readlines_returns_the_lines_between_newlines (st : t) :
  (readlines st).1 = map byte (lines_of (iter st)) /\
  concat (readlines st).1 = byte (filter (fun e => negb (is_newline e) = true) (iter st)) /\
  iter (readlines st).2 = [].
Proof.
  split; [apply readlines_from_lines; lia |].
  apply readlines_from_spec. lia.
Qed.

(** Two lines with two newline elements between them and one in front. *)
Lemma lines_of_example :
  lines_of [Enc [x0a]; Enc ["a"]; Enc ["b"]; Enc [x0d]; Enc [x0a]; Enc ["c"]]%byte
  = [[Enc ["a"]; Enc ["b"]]; [Enc ["c"]]]%byte.
Proof. reflexivity. Qed.

(** The docstring's three lines. *)
Lemma readlines_docstring :
  (readlines (init utf8_encode
                [text "line one"; [10%N]; text "line two"; [10%N]; text "line three"; [10%N]]
                4096)).1
  = map String.list_byte_of_string ["line one"; "line two"; "line three"].
Proof. vm_compute. reflexivity. Qed.

End IterStringIO.

(** ** The generic driver [read_any] (io.py, lines 167-231) and
    [detect_encoding] (lines 1041-1075) *)

Module Driver.

(** Values passed as keyword arguments. *)
Inductive kwarg : Type :=
| KNone
| KBool (b : bool)
| KInt (n : Z)
| KStr (s : string).

#[global] Instance kwarg_eq_dec : EqDecision kwarg.
Proof. solve_decision. Defined.

(** A file object: its content and the offset of the next read or write. *)
Record file : Type := mk_file { data : list Byte.byte; offset : nat }.

Definition seek (f : file) (n : nat) : file := {| data := data f; offset := n |}.

Definition tell (f : file) : nat := offset f.

(** [f.read()]: everything from the offset on. *)
Definition read (f : file) : list Byte.byte * file :=
  (drop (offset f) (data f), seek f (length (data f))).

(** [f.write(bs)]: overwrite at the offset, extending the file. *)
Definition fwrite (f : file) (bs : list Byte.byte) : file :=
  {| data := take (offset f) (data f) ++ bs ++ drop (offset f + length bs) (data f);
     offset := offset f + length bs |}.

(** The lines of a byte string, each with its terminator. *)
Fixpoint split_lines (cur : list Byte.byte) (bs : list Byte.byte) : list (list Byte.byte) :=
  match bs with
  | [] => match cur with [] => [] | _ => [rev cur] end
  | b :: bs' =>
      if bool_decide (b = x0a%byte) then rev (b :: cur) :: split_lines [] bs'
      else split_lines (b :: cur) bs'
  end.

(** What [for line in f] delivers from the offset on. *)
Definition lines (f : file) : list (list Byte.byte) := split_lines [] (drop (offset f) (data f)).

(** The file system: [open(path, mode)].  A mode starting with [w]
    creates or truncates; any other mode needs the file to exist. *)
Definition py_open (fs : gmap string (list Byte.byte)) (path mode : string) : result file :=
  if String.prefix "w" mode then Ok {| data := []; offset := 0 |}
  else match fs !! path with
       | Some bs => Ok {| data := bs; offset := 0 |}
       | None => Raise (mk_exn IOError "No such file or directory")
       end.

(** What [read_any] is given: a path, or an object that has [read]. *)
Inductive source : Type :=
| Path (p : string)
| FileObj (f : file).

(** The result of chardet's detector. *)
Record detection : Type := mk_detection { confidence : Q; encoding : option string }.

Definition kwarg_of_encoding (e : option string) : kwarg :=
  match e with Some s => KStr s | None => KNone end.

Section ReadAny.

(** chardet's [UniversalDetector]. *)
Variable detector : Type.
Variable new_detector : detector.
Variable feed : detector -> list Byte.byte -> detector.
Variable done : detector -> bool.
Variable close : detector -> detector.
Variable detector_result : detector -> detection.

(** The package constant [ENCODING] with its codec, and the codec lookup
    behind [unicode(bytes, encoding)]; only the NUL-byte branch uses them. *)
Variable ENCODING : string.
Variable encode_default : list N -> list Byte.byte.
Variable decode_default : list Byte.byte -> result (list N).
Variable unicode : list Byte.byte -> option kwarg -> result (list N).

(** [line.decode(ENCODING).lstrip('\ufeff').encode(ENCODING)] *)
Definition strip_bom (line : list Byte.byte) : result (list Byte.byte) :=
  match decode_default line with
  | Raise e => Raise e
  | Ok cs => Ok (encode_default (span (fun c => bool_decide (c = 65279%N)) cs).2)
  end.

(** [get_utf8(f, encoding)] with [remove_BOM=True]: the new in-memory file
    (or the exception), and [f] after it has been read. *)
Definition get_utf8 (f : file) (encoding : option kwarg) : result file * file :=
  let '(bs, f') := read f in
  match unicode bs encoding with
  | Raise e => (Raise e, f')
  | Ok cs =>
      match split_lines [] (encode_default cs) with
      | [] => (Ok {| data := []; offset := 0 |}, f')
      | first :: others =>
          match strip_bom first with
          | Raise e => (Raise e, f')
          | Ok first' => (Ok {| data := first' ++ concat others; offset := 0 |}, f')
          end
      end
  end.

(** The loop of [detect_encoding]: feed line after line and stop after the
    first line that makes the detector confident.  Returns the detector and
    the number of bytes consumed. *)
Fixpoint feed_lines (d : detector) (ls : list (list Byte.byte)) : detector * nat :=
  match ls with
  | [] => (d, 0%nat)
  | l :: ls' =>
      let d' := feed d l in
      if done d' then (d', length l)
      else let '(d'', k) := feed_lines d' ls' in (d'', (length l + k)%nat)
  end.

(** [detect_encoding(f)] with [verbose=False]. *)
Definition detect_encoding (f : file) : detection * file :=
  let pos := tell f in
  let '(d, k) := feed_lines new_detector (lines f) in
  let f1 := seek f (offset f + k) in
  let d' := close d in
  let f2 := seek f1 pos in
  (detector_result d', f2).

(** The records are of type [R], the positional arguments of type [A].  A
    reader is run on a file and gives the run of its generator and the file
    as it leaves it. *)
Context {R A : Type}.

Definition reader_fn : Type := file -> list A -> gmap string kwarg -> run R * file.

(** [for num, r in enumerate(...): if num >= pos: yield r] *)
Definition from_pos (pos : nat) (rs : list R) : list R :=
  (filter (fun '(num, _) => pos <= num)%nat (enumerate rs)).*2.

Definition _read_any (f : file) (reader : reader_fn) (args : list A) (convert : bool)
    (kwargs : gmap string kwarg) : run R * file :=
  let '(r1, f1) := reader f args kwargs in
  let pos := length (yielded r1) in
  match ending r1 with
  | None => (r1, f1)
  | Some err =>
      if isinstance err UnicodeDecodeError then
        let f2 := seek f1 0 in
        let '(det, f3) := detect_encoding f2 in
        let kwargs' := <["encoding" := kwarg_of_encoding (encoding det)]> kwargs in
        let '(r2, f4) := reader f3 args kwargs' in
        (mk_run (yielded r1 ++ from_pos pos (yielded r2)) (ending r2), f4)
      else if isinstance err Exception then
        if bool_decide (message err = "line contains NULL byte") && convert then
          let f2 := seek f1 0 in
          match get_utf8 f2 (kwargs !! "encoding") with
          | (Raise e, f3) => (mk_run (yielded r1) (Some e), f3)
          | (Ok utf8_f, f3) =>
              let kwargs' := <["encoding" := KStr ENCODING]> kwargs in
              let '(r2, _) := reader utf8_f args kwargs' in
              (mk_run (yielded r1 ++ from_pos pos (yielded r2)) (ending r2), f3)
          end
        else (r1, f1)
      else (r1, f1)
  end.

(** The file [read_any] works on, and the [convert] flag it passes. *)
Definition opened (fs : gmap string (list Byte.byte)) (filepath : source) (mode : string)
    : result (file * bool) :=
  match filepath with
  | FileObj f => Ok (f, false)
  | Path p => match py_open fs p mode with
              | Ok f => Ok (f, true)
              | Raise e => Raise e
              end
  end.

(** [read_any]: the run, and the file as it is left ([None] when [open]
    failed). *)
Definition read_any (fs : gmap string (list Byte.byte)) (filepath : source)
    (reader : reader_fn) (mode : string) (args : list A) (kwargs : gmap string kwarg)
    : run R * option file :=
  match opened fs filepath mode with
  | Raise e => (mk_run [] (Some e), None)
  | Ok (f, convert) =>
      let '(r, f') := _read_any f reader args convert kwargs in (r, Some f')
  end.

(** *** The retry after a decoding failure *)

Lemma from_pos_shift (pos k : nat) (rs : list R) :
  (filter (fun '(num, _) => pos <= num)%nat (imap (fun i x => ((k + i)%nat, x)) rs)).*2
  = drop (pos - k) rs.
Proof.
  revert k. induction rs as [| r rs IH]; intros k.
  - by rewrite drop_nil.
  - rewrite imap_cons, filter_cons. simpl.
    rewrite (imap_ext _ (fun i x => ((S k + i)%nat, x))) by (intros; simpl; f_equal; lia).
    destruct (decide (pos <= k + 0)%nat) as [Hle | Hgt].
    + rewrite fmap_cons, IH. simpl.
      replace (pos - k)%nat with 0%nat by lia.
      replace (pos - S k)%nat with 0%nat by lia. reflexivity.
    + rewrite IH. replace (pos - k)%nat with (S (pos - S k)) by lia. reflexivity.
Qed.

Lemma from_pos_drop (pos : nat) (rs : list R) : from_pos pos rs = drop pos rs.
Proof.
  unfold from_pos, enumerate.
  transitivity (drop (pos - 0) rs).
  - rewrite <- (from_pos_shift pos 0 rs). reflexivity.
  - f_equal. lia.
Qed.

(** [detect_encoding] leaves the file where it found it. *)
Lemma detect_encoding_restores (f : file) : (detect_encoding f).2 = f.
Proof.
  unfold detect_encoding. destruct (feed_lines new_detector (lines f)) as [d k].
  destruct f. reflexivity.
Qed.

Lemma _read_any_decode_retry (f f1 : file) (reader : reader_fn) (args : list A)
    (convert : bool) (kwargs : gmap string kwarg) (r1 : run R) (err : exn) :
  reader f args kwargs = (r1, f1) ->
  ending r1 = Some err ->
  isinstance err UnicodeDecodeError = true ->
  _read_any f reader args convert kwargs =
    let f2 := seek f1 0 in
    let kwargs' :=
      <["encoding" := kwarg_of_encoding (encoding (detect_encoding f2).1)]> kwargs in
    let '(r2, f4) := reader f2 args kwargs' in
    (mk_run (yielded r1 ++ drop (length (yielded r1)) (yielded r2)) (ending r2), f4).
Proof.
  intros Hrun Hend Hdec. unfold _read_any. rewrite Hrun, Hend, Hdec. simpl.
  pose proof (detect_encoding_restores (seek f1 0)) as Hres.
  destruct (detect_encoding (seek f1 0)) as [det f3]. simpl in *. subst f3.
  destruct (reader (seek f1 0) args _) as [r2 f4].
  by rewrite from_pos_drop.
Qed.

(** C1.  When the first pass of the reader has yielded [N] records and then
    fails with a decoding error, [read_any] restarts the reader on the file
    seeked back to offset 0, with the detected encoding stored under
    [encoding] in the keyword arguments, and yields from the second pass
    only the records of index [N] and up: the record at position [i] of the
    whole output is record [i] of the first pass below [N] and record [i] of
    the second pass from [N] on, so no index is emitted twice. *)
Theorem read_any_retry_resumes_after_emitted
    (fs : gmap string (list Byte.byte)) (filepath : source) (mode : string)
    (reader : reader_fn) (args : list A) (kwargs : gmap string kwarg)
    (f f1 : file) (convert : bool) (r1 : run R) (err : exn) :
  opened fs filepath mode = Ok (f, convert) ->
  reader f args kwargs = (r1, f1) ->
  ending r1 = Some err ->
  isinstance err UnicodeDecodeError = true ->
  let N := length (yielded r1) in
  let restart := (detect_encoding (seek f1 0)).2 in
  let detected := kwarg_of_encoding (encoding (detect_encoding (seek f1 0)).1) in
  let kwargs' := <["encoding" := detected]> kwargs in
  let r2 := (reader restart args kwargs').1 in
  let out := (read_any fs filepath reader mode args kwargs).1 in
  tell restart = 0%nat /\ data restart = data f1 /\
  kwargs' !! "encoding" = Some detected /\
  yielded out = yielded r1 ++ drop N (yielded r2) /\
  ending out = ending r2 /\
  (forall i : nat,
     yielded out !! i = if (i <? N)%nat then yielded r1 !! i else yielded r2 !! i).
Proof.
  intros Hopen Hrun Hend Hdec N restart detected kwargs' r2 out.
  assert (restart = seek f1 0) as Hrestart by apply detect_encoding_restores.
  assert (out = mk_run (yielded r1 ++ drop N (yielded r2)) (ending r2)) as Hout.
  { subst out. unfold read_any. rewrite Hopen.
    rewrite (_read_any_decode_retry f f1 reader args convert kwargs r1 err Hrun Hend Hdec).
    subst r2 kwargs' detected. rewrite Hrestart. simpl.
    destruct (reader (seek f1 0) args _) as [r2' f4]. reflexivity. }
  rewrite Hrestart, Hout. simpl.
  split; [reflexivity |]. split; [reflexivity |].
  split; [apply lookup_insert_eq |]. split; [reflexivity |]. split; [reflexivity |].
  intros i. destruct (Nat.ltb_spec i N) as [Hlt | Hge].
  - by rewrite lookup_app_l.
  - rewrite lookup_app_r by exact Hge. rewrite lookup_drop. f_equal. unfold N. lia.
Qed.

(** *** Further properties of the driver *)

(** [detect_encoding] gives the file back as it received it: same content,
    same offset, whatever the detector read. *)
Theorem detect_encoding_leaves_file_unchanged (f : file) :
  (detect_encoding f).2 = f /\
  tell (detect_encoding f).2 = tell f /\ data (detect_encoding f).2 = data f.
Proof. rewrite detect_encoding_restores. auto. Qed.

Lemma split_lines_line (body rest cur : list Byte.byte) :
  Forall (fun b => b <> x0a%byte) body ->
  split_lines cur (body ++ x0a%byte :: rest)
  = (rev cur ++ body ++ [x0a%byte]) :: split_lines [] rest.
Proof.
  intros Hbody. revert cur. induction Hbody as [| b body Hb _ IH]; intros cur; simpl.
  - reflexivity.
  - rewrite bool_decide_eq_false_2 by exact Hb. rewrite IH. simpl.
    by rewrite <- app_assoc.
Qed.

(** The detector is fed line by line and the loop breaks at the first line
    after which it is done: when the first line of the file is enough, the
    rest of the file has no influence on the result. *)
Theorem detect_encoding_stops_when_done (body rest : list Byte.byte) :
  Forall (fun b => b <> x0a%byte) body ->
  done (feed new_detector (body ++ [x0a%byte])) = true ->
  (detect_encoding {| data := body ++ x0a%byte :: rest; offset := 0 |}).1
  = detector_result (close (feed new_detector (body ++ [x0a%byte]))).
Proof.
  intros Hbody Hdone. unfold detect_encoding, lines. cbn [data offset].
  rewrite drop_0, (split_lines_line body rest [] Hbody). cbn [feed_lines rev app].
  rewrite Hdone. reflexivity.
Qed.


(** The retry after the NUL-byte error, for a file opened from a path:
    [get_utf8] is called on the file from its start, with the caller's
    [encoding].  When it gives the UTF-8 copy, the reader is restarted on
    that copy with [encoding] set to [ENCODING], and only the records of
    index [N] and up are yielded from the second pass.  When it raises,
    [read_any] ends with its exception after the [N] records; so it does
    whenever the caller gave no [encoding] and [unicode(bytes, None)]
    raises, as Python's does (a [TypeError]). *)
Theorem read_any_recodes_after_null_byte
    (fs : gmap string (list Byte.byte)) (path mode : string)
    (reader : reader_fn) (args : list A) (kwargs : gmap string kwarg)
    (f f1 : file) (r1 : run R) (err : exn) :
  py_open fs path mode = Ok f ->
  reader f args kwargs = (r1, f1) ->
  ending r1 = Some err ->
  isinstance err UnicodeDecodeError = false ->
  isinstance err Exception = true ->
  message err = "line contains NULL byte" ->
  let N := length (yielded r1) in
  read_any fs (Path path) reader mode args kwargs
  = match get_utf8 (seek f1 0) (kwargs !! "encoding") with
    | (Ok utf8_f, f3) =>
        let r2 := (reader utf8_f args (<["encoding" := KStr ENCODING]> kwargs)).1 in
        (mk_run (yielded r1 ++ drop N (yielded r2)) (ending r2), Some f3)
    | (Raise e, f3) => (mk_run (yielded r1) (Some e), Some f3)
    end /\
  (forall e, kwargs !! "encoding" = None -> unicode (data f1) None = Raise e ->
     (read_any fs (Path path) reader mode args kwargs).1 = mk_run (yielded r1) (Some e)).
Proof.
  intros Hopen Hrun Hend Hdec Hexc Hmsg N.
  assert (read_any fs (Path path) reader mode args kwargs
          = match get_utf8 (seek f1 0) (kwargs !! "encoding") with
            | (Ok utf8_f, f3) =>
                let r2 := (reader utf8_f args (<["encoding" := KStr ENCODING]> kwargs)).1 in
                (mk_run (yielded r1 ++ drop N (yielded r2)) (ending r2), Some f3)
            | (Raise e, f3) => (mk_run (yielded r1) (Some e), Some f3)
            end) as Hany.
  { unfold read_any, opened, _read_any. rewrite Hopen, Hrun, Hend, Hdec, Hexc, Hmsg.
    rewrite bool_decide_eq_true_2 by reflexivity. cbn [andb].
    destruct (get_utf8 (seek f1 0) (kwargs !! "encoding")) as [[utf8_f | e] f3];
      [| reflexivity].
    cbn zeta. destruct (reader utf8_f args _) as [r2 f4]. cbn [fst yielded ending].
    by rewrite from_pos_drop. }
  split; [exact Hany |].
  intros e Hnone Hraise. rewrite Hany, Hnone.
  unfold get_utf8, read. cbn [seek offset data]. rewrite drop_0, Hraise. reflexivity.
Qed.

End ReadAny.

(** *** A concrete run of the retry *)

(** A detector that is confident as soon as it has seen a byte above 127. *)
Definition has_high (l : list Byte.byte) : bool :=
  existsb (fun b => (127 <? Byte.to_N b)%N) l.

Definition sample_result (seen : bool) : detection :=
  {| confidence := 1; encoding := Some (if seen then "utf-8" else "ascii") |}.

(** A reader that yields the lines of the file and, when told the ascii
    encoding, fails with a decoding error on the first line holding a byte
    above 127. *)
Fixpoint decode_lines (ascii_only : bool) (ls : list (list Byte.byte)) : run (list Byte.byte) :=
  match ls with
  | [] => mk_run [] None
  | l :: ls' =>
      if ascii_only && has_high l
      then mk_run [] (Some (mk_exn UnicodeDecodeError "ordinal not in range(128)"))
      else let r := decode_lines ascii_only ls' in mk_run (l :: yielded r) (ending r)
  end.

Definition line_reader : @reader_fn (list Byte.byte) unit :=
  fun f _ kwargs =>
    (decode_lines (bool_decide (kwargs !! "encoding" = Some (KStr "ascii"))) (lines f),
     seek f (length (data f))).

Definition sample_file : file :=
  {| data := ["a"; x0a; "b"; x0a; xc3; xa9; x0a]%byte; offset := 0 |}.

Lemma read_any_retry_resumes_after_emitted_witness :
  yielded (read_any bool false (fun d l => d || has_high l) id id sample_result
             "utf-8" utf8 (fun _ => Ok []) (fun _ _ => Ok [])
             ∅ (FileObj sample_file) line_reader "rU" [] {["encoding" := KStr "ascii"]}).1
  = [["a"; x0a]; ["b"; x0a]; [xc3; xa9; x0a]]%byte.
Proof.
  pose proof (read_any_retry_resumes_after_emitted bool false (fun d l => d || has_high l)
    id id sample_result "utf-8" utf8 (fun _ => Ok [])
    (fun _ _ => Ok []) ∅ (FileObj sample_file) "rU" line_reader []
    {["encoding" := KStr "ascii"]} sample_file
    (seek sample_file 7) false
    (mk_run [["a"; x0a]; ["b"; x0a]]%byte
       (Some (mk_exn UnicodeDecodeError "ordinal not in range(128)")))
    (mk_exn UnicodeDecodeError "ordinal not in range(128)")
    eq_refl eq_refl eq_refl eq_refl) as (_ & _ & _ & Hout & _).
  rewrite Hout. vm_compute. reflexivity.
Defined.

(** A reader for the other failures: it yields the lines of the file and
    fails on the first line that holds a NUL byte, as the csv module does. *)
Fixpoint csv_lines (ls : list (list Byte.byte)) : run (list Byte.byte) :=
  match ls with
  | [] => mk_run [] None
  | l :: ls' =>
      if existsb (fun b => bool_decide (b = x00%byte)) l
      then mk_run [] (Some (mk_exn Exception "line contains NULL byte"))
      else let r := csv_lines ls' in mk_run (l :: yielded r) (ending r)
  end.

Definition csv_reader : @reader_fn (list Byte.byte) unit :=
  fun f _ _ => (csv_lines (lines f), seek f (length (data f))).

(** A two-byte little-endian codec for the codes below 256: every second
    byte is the character. *)
Fixpoint every_second (bs : list Byte.byte) : list N :=
  match bs with
  | b :: _ :: bs' => Byte.to_N b :: every_second bs'
  | _ => []
  end.

(** The text [a], newline, [b], newline in that codec. *)
Definition wide_file : file :=
  {| data := ["a"; x00; x0a; x00; "b"; x00; x0a; x00]%byte; offset := 0 |}.

Definition wide_fs : gmap string (list Byte.byte) := {["wide.csv" := data wide_file]}.


(** [unicode(bytes, encoding)] for that codec: like Python's, it wants the
    name of an encoding and raises a [TypeError] when given [None]. *)
Definition no_encoding : exn := mk_exn TypeError "unicode() argument 2 must be string, not None".

Definition wide_unicode (bs : list Byte.byte) (encoding : option kwarg) : result (list N) :=
  match encoding with
  | Some (KStr _) => Ok (every_second bs)
  | _ => Raise no_encoding
  end.

Definition wide_kwargs : gmap string kwarg := {["encoding" := KStr "utf-16-le"]}.

(** With the encoding given, the file is read through its UTF-8 copy;
    without it, the retry fails in [get_utf8]. *)
Lemma read_any_recodes_after_null_byte_witness :
  (read_any bool false (fun d l => d || has_high l) id id sample_result
     "utf-8" utf8 (fun bs => Ok (map Byte.to_N bs)) wide_unicode
     wide_fs (Path "wide.csv") csv_reader "rU" [] wide_kwargs).1
  = mk_run [["a"; x0a]; ["b"; x0a]]%byte None /\
  (read_any bool false (fun d l => d || has_high l) id id sample_result
     "utf-8" utf8 (fun bs => Ok (map Byte.to_N bs)) wide_unicode
     wide_fs (Path "wide.csv") csv_reader "rU" [] ∅).1
  = mk_run [] (Some no_encoding).
Proof.
  split.
  - destruct (read_any_recodes_after_null_byte bool false (fun d l => d || has_high l)
      id id sample_result "utf-8" utf8 (fun bs => Ok (map Byte.to_N bs))
      wide_unicode wide_fs "wide.csv" "rU"
      csv_reader [] wide_kwargs wide_file (seek wide_file 8)
      (mk_run [] (Some (mk_exn Exception "line contains NULL byte")))
      (mk_exn Exception "line contains NULL byte")
      ltac:(vm_compute; reflexivity) eq_refl eq_refl eq_refl eq_refl eq_refl) as [H _].
    rewrite H. reflexivity.
  - destruct (read_any_recodes_after_null_byte bool false (fun d l => d || has_high l)
      id id sample_result "utf-8" utf8 (fun bs => Ok (map Byte.to_N bs))
      wide_unicode wide_fs "wide.csv" "rU"
      csv_reader [] ∅ wide_file (seek wide_file 8)
      (mk_run [] (Some (mk_exn Exception "line contains NULL byte")))
      (mk_exn Exception "line contains NULL byte")
      ltac:(vm_compute; reflexivity) eq_refl eq_refl eq_refl eq_refl eq_refl) as [_ H].
    exact (H no_encoding eq_refl eq_refl).
Defined.

Lemma detect_encoding_stops_when_done_witness :
  (detect_encoding bool false (fun d l => d || has_high l) id id sample_result
     {| data := [xc3; xa9; x0a; "a"]%byte; offset := 0 |}).1
  = sample_result true.
Proof.
  exact (detect_encoding_stops_when_done bool false (fun d l => d || has_high l) id id
           sample_result [xc3; xa9]%byte ["a"%byte]
           ltac:(repeat constructor; discriminate) eq_refl).
Defined.

End Driver.

(** ** [get_reader] (io.py, lines 1078-1117) *)

Module Readers.

(** An attribute of the module [tabutils.io]. *)
Inductive attr : Type :=
| Function (name : string)
| Class (name : string).

#[global] Instance attr_eq_dec : EqDecision attr.
Proof. solve_decision. Defined.

(** The functions and the class that io.py defines at its top level. *)
Definition io_functions : list string :=
  ["patch_http_response_read"; "_read_any"; "read_any"; "_read_csv"; "read_mdb";
   "read_dbf"; "read_sqlite"; "read_csv"; "read_tsv"; "read_fixed_csv";
   "sanitize_sheet"; "read_xls"; "read_json"; "read_geojson"; "write"; "hash_file";
   "get_utf8"; "detect_encoding"; "get_reader"].

Definition io_module : gmap string attr :=
  <["IterStringIO" := Class "IterStringIO"]>
    (list_to_map (map (fun n => (n, Function n)) io_functions)).

Definition getattr (module : gmap string attr) (name : string) : result attr :=
  match module !! name with
  | Some a => Ok a
  | None => Raise (mk_exn AttributeError ("'module' object has no attribute '" +:+ name +:+ "'"))
  end.

Definition switch_items : list (string * string) :=
  [("csv", "read_csv"); ("xls", "read_xls"); ("xlsx", "read_xls"); ("mdb", "read_mdb");
   ("json", "read_json"); ("geojson", "read_geojson"); ("geojson.json", "read_geojson");
   ("sqlite", "read_sqlite"); ("dbf", "read_dbf"); ("tsv", "read_tsv")].

Definition switch : gmap string string := list_to_map switch_items.

(** [switch[extension]]: the key itself is the argument of the [KeyError]. *)
Definition getitem (d : gmap string string) (key : string) : result string :=
  match d !! key with
  | Some v => Ok v
  | None => Raise (mk_exn KeyError key)
  end.

(** The [try] block guards with [except IndexError] only. *)
Definition get_reader (extension : string) : result attr :=
  let body :=
    match getitem switch extension with
    | Ok name => getattr io_module name
    | Raise e => Raise e
    end in
  match body with
  | Raise e =>
      if isinstance e IndexError
      then Raise (mk_exn TypeError ("Reader for extension `" +:+ extension +:+ "` not found!"))
      else Raise e
  | Ok reader => Ok reader
  end.

Lemma get_reader_unknown (extension : string) :
  switch !! extension = None -> get_reader extension = Raise (mk_exn KeyError extension).
Proof. intros H. unfold get_reader, getitem. rewrite H. reflexivity. Qed.

Lemma get_reader_listed :
  Forall (fun '(ext, name) => get_reader ext = Ok (Function name)) switch_items.
Proof. repeat constructor. Qed.

(** C2.  An extension outside the table makes [get_reader] fail with the
    [KeyError] of the lookup, a NotFound error (the [except IndexError]
    clause does not catch it); an extension of the table gives the reader
    function it names.  In particular [csv] and [xls] give [read_csv] and
    [read_xls], and the empty extension fails. *)
Theorem get_reader_table_or_not_found (extension : string) :
  match switch !! extension with
  | None => exists e, get_reader extension = Raise e /\
                      cls e = KeyError /\ spec_error_kind e = Some NotFound
  | Some name => get_reader extension = Ok (Function name)
  end /\
  get_reader "csv" = Ok (Function "read_csv") /\
  get_reader "xls" = Ok (Function "read_xls") /\
  get_reader "" = Raise (mk_exn KeyError "").
Proof.
  split; [| repeat split].
  destruct (switch !! extension) as [name |] eqn:Hlook.
  - apply elem_of_list_to_map_2 in Hlook.
    pose proof get_reader_listed as Hall. rewrite Forall_forall in Hall.
    apply (Hall (extension, name)), Hlook.
  - exists (mk_exn KeyError extension).
    split; [by apply get_reader_unknown | split; reflexivity].
Qed.

End Readers.

(** ** [sanitize_sheet] (io.py, lines 641-699) *)

Module Sheet.

(** xlrd's cell types. *)
Inductive cell_type : Type :=
| XL_CELL_EMPTY
| XL_CELL_TEXT
| XL_CELL_NUMBER
| XL_CELL_DATE
| XL_CELL_BOOLEAN
| XL_CELL_ERROR
| XL_CELL_BLANK.

#[global] Instance cell_type_eq_dec : EqDecision cell_type.
Proof. solve_decision. Defined.

(** A cell's value: a float (a rational here: the code only compares it
    with 1) or a text. *)
Inductive cell_value : Type :=
| VNum (q : Q)
| VText (s : string).

(** The keys of the dispatch table: a cell type, or one of the two tags the
    loop assigns. *)
Inductive key : Type :=
| Cell (t : cell_type)
| Tag (s : string).

#[global] Instance key_eq_dec : EqDecision key.
Proof. solve_decision. Defined.

(** A sheet: its rows; [row_types] and [row_values] read one row. *)
Definition sheet : Type := list (list (cell_type * cell_value)).

Definition row_types (sh : sheet) (i : nat) : list cell_type := (default [] (sh !! i)).*1.
Definition row_values (sh : sheet) (i : nat) : list cell_value := (default [] (sh !! i)).*2.

(** [value < 1]: in Python 2 a text is never below a number. *)
Definition lt_1 (value : cell_value) : bool :=
  match value with
  | VNum q => if Qlt_le_dec q 1 then true else false
  | VText _ => false
  end.

(** [value.is_integer]: the bound method itself, which the code does not
    call; a float has it, a text does not. *)
Inductive bound_method : Type := Float_is_integer (q : Q).

Definition attr_is_integer (value : cell_value) : result bound_method :=
  match value with
  | VNum q => Ok (Float_is_integer q)
  | VText _ => Raise (mk_exn AttributeError "'unicode' object has no attribute 'is_integer'")
  end.

(** The truth value of a bound method. *)
Definition method_truth (m : bound_method) : bool := true.

(** What [float.is_integer()] would answer, had it been called. *)
Definition is_integer (q : Q) : bool := bool_decide (Z.rem (Qnum q) (Z.pos (Qden q)) = 0).

Section Xlrd.

(** xlrd and the [datetime] module.  [xldate_as_datetime] and
    [xldate_as_tuple] raise on a serial number outside their range
    ([XLDateNegative], [XLDateTooLarge], [OverflowError]);
    [error_text_from_code] is a dict, with the seven error codes of Excel
    as its keys. *)
Variable datetime : Type.
Variable xl2dt : Q -> Z -> result datetime.
Variable strftime : datetime -> string -> string.
Variable xldate_as_tuple : Q -> Z -> result (list Z).
Variable time_strftime : list Z -> string -> string.
Variable unicode_of_float : Q -> string.
Variable error_text_from_code : Q -> option string.

(** What a cell becomes: a string, or the value itself for a type the
    table does not list. *)
Inductive cell_out : Type :=
| Str (s : string)
| Same (v : cell_value).

Section Formats.

Variable kwargs : gmap string string.
Variable mode : Z.

Definition date_format : string := default "%Y-%m-%d" (kwargs !! "date_format").
Definition dt_format : string := default "%Y-%m-%d %H:%M:%S" (kwargs !! "date_format").
Definition time_format : string := default "%H:%M:%S" (kwargs !! "date_format").

Definition time_func (value : Q) : result string :=
  match xldate_as_tuple value mode with
  | Raise e => Raise e
  | Ok tuple => let args := drop 3 tuple in Ok (time_strftime args time_format)
  end.

(** [xl2dt(v, mode).strftime(format)] *)
Definition date_func (format : string) (value : Q) : result string :=
  match xl2dt value mode with
  | Raise e => Raise e
  | Ok d => Ok (strftime d format)
  end.

(** The functions of xlrd and of [datetime] want a number: on a text they
    raise a [TypeError]. *)
Definition on_number (f : Q -> result string) (value : cell_value) : result cell_out :=
  match value with
  | VNum q => match f q with
              | Ok s => Ok (Str s)
              | Raise e => Raise e
              end
  | VText _ => Raise (mk_exn TypeError "a float is required")
  end.

(** [bool(v)] *)
Definition truth (value : cell_value) : bool :=
  match value with
  | VNum q => negb (Qeq_bool q 0)
  | VText s => negb (bool_decide (s = ""))
  end.

Definition switch (type_ : key) : option (cell_value -> result cell_out) :=
  match type_ with
  | Cell XL_CELL_DATE => Some (on_number (date_func date_format))
  | Tag "datetime" => Some (on_number (date_func dt_format))
  | Tag "time" => Some (on_number time_func)
  | Cell XL_CELL_EMPTY => Some (fun _ => Ok (Str ""))
  | Cell XL_CELL_NUMBER =>
      Some (fun v => match v with
                     | VNum q => Ok (Str (unicode_of_float q))
                     | VText s => Ok (Str s)
                     end)
  | Cell XL_CELL_BOOLEAN => Some (fun v => Ok (Str (if truth v then "True" else "False")))
  | Cell XL_CELL_ERROR =>
      Some (fun v => match v with
                     | VNum q =>
                         match error_text_from_code q with
                         | Some text => Ok (Str text)
                         | None => Raise (mk_exn KeyError (unicode_of_float q))
                         end
                     | VText s => Raise (mk_exn KeyError s)
                     end)
  | _ => None
  end.

(** The body of the inner loop: the reclassification, then the dispatch. *)
Definition reclassify (type_ : cell_type) (value : cell_value) : result key :=
  if bool_decide (type_ = XL_CELL_DATE) && lt_1 value then Ok (Tag "time")
  else if bool_decide (type_ = XL_CELL_DATE) then
    match attr_is_integer value with
    | Raise e => Raise e
    | Ok m => if negb (method_truth m) then Ok (Tag "datetime") else Ok (Cell type_)
    end
  else Ok (Cell type_).

Definition sanitize_cell (type_ : cell_type) (value : cell_value) : result cell_out :=
  match reclassify type_ value with
  | Raise e => Raise e
  | Ok k => default (fun v => Ok (Same v)) (switch k) value
  end.

(** The cells of one row, up to the first exception. *)
Fixpoint sanitize_row (i : nat) (cells : list (cell_type * cell_value)) : run (nat * cell_out) :=
  match cells with
  | [] => mk_run [] None
  | (type_, value) :: cells' =>
      match sanitize_cell type_ value with
      | Raise e => mk_run [] (Some e)
      | Ok out =>
          let r := sanitize_row i cells' in mk_run ((i, out) :: yielded r) (ending r)
      end
  end.

Fixpoint sanitize_rows (sh : sheet) (first_col : Z) (rows : list nat) : run (nat * cell_out) :=
  match rows with
  | [] => mk_run [] None
  | i :: rows' =>
      let types := slice_from first_col (row_types sh i) in
      let values := slice_from first_col (row_values sh i) in
      let r := sanitize_row i (zip types values) in
      match ending r with
      | Some e => r
      | None =>
          let r' := sanitize_rows sh first_col rows' in
          mk_run (yielded r ++ yielded r') (ending r')
      end
  end.

(** [for i in xrange(sheet.nrows)] *)
Definition sanitize_sheet (sh : sheet) (first_col : Z) : run (nat * cell_out) :=
  sanitize_rows sh first_col (seq 0 (length sh)).

End Formats.

(** *** What the three date branches do *)

(** A date cell below 1 is rendered by [time_func] with [time_format]. *)
Lemma sanitize_date_below_1 (kwargs : gmap string string) (mode : Z) (q : Q) :
  (q < 1)%Q ->
  sanitize_cell kwargs mode XL_CELL_DATE (VNum q)
  = on_number (time_func kwargs mode) (VNum q).
Proof.
  intros Hlt. unfold sanitize_cell, reclassify. simpl.
  destruct (Qlt_le_dec q 1) as [_ | Hge]; [reflexivity |].
  exfalso. eapply Qlt_not_le; eauto.
Qed.

(** Every other date cell, whole or not, is rendered with [date_format]:
    the [datetime] branch is never taken. *)
Lemma sanitize_date_from_1 (kwargs : gmap string string) (mode : Z) (q : Q) :
  (1 <= q)%Q ->
  sanitize_cell kwargs mode XL_CELL_DATE (VNum q)
  = on_number (date_func mode (date_format kwargs)) (VNum q).
Proof.
  intros Hge. unfold sanitize_cell, reclassify. simpl.
  destruct (Qlt_le_dec q 1) as [Hlt | _]; [| reflexivity].
  exfalso. eapply Qlt_not_le; eauto.
Qed.

Lemma reclassify_never_datetime (type_ : cell_type) (value : cell_value) :
  reclassify type_ value <> Ok (Tag "datetime").
Proof.
  unfold reclassify.
  destruct (bool_decide (type_ = XL_CELL_DATE)), (lt_1 value); simpl; try discriminate.
  destruct (attr_is_integer value); simpl; discriminate.
Qed.

(** C3, at the failing input.  The date cell 30075.5 (noon of 1982-05-04)
    is not an integer and not below 1; with no keyword argument it is
    rendered with the date format ["%Y-%m-%d"], not with the datetime format
    ["%Y-%m-%d %H:%M:%S"]: the one pair yielded is the datetime that xlrd
    makes of 30075.5, printed with the date format. *)
Theorem sanitize_sheet_fractional_date_uses_date_format (mode : Z) :
  is_integer (60151 # 2) = false /\
  lt_1 (VNum (60151 # 2)) = false /\
  sanitize_sheet ∅ mode [[(XL_CELL_DATE, VNum (60151 # 2))]] 0
  = match xl2dt (60151 # 2) mode with
    | Ok d => mk_run [(0%nat, Str (strftime d "%Y-%m-%d"))] None
    | Raise e => mk_run [] (Some e)
    end.
Proof.
  split; [reflexivity |]. split; [reflexivity |].
  assert (sanitize_cell ∅ mode XL_CELL_DATE (VNum (60151 # 2))
          = on_number (date_func mode "%Y-%m-%d") (VNum (60151 # 2))) as Hcell by reflexivity.
  unfold sanitize_sheet. cbn [length seq sanitize_rows].
  change (zip _ _) with [(XL_CELL_DATE, VNum (60151 # 2))].
  cbn [sanitize_row]. rewrite Hcell. unfold on_number, date_func.
  destruct (xl2dt (60151 # 2) mode); reflexivity.
Qed.

(** The three formats all read the key [date_format]: a caller's
    [date_format] replaces the time format too. *)
Lemma formats_share_one_key (kwargs : gmap string string) (fmt : string) :
  kwargs !! "date_format" = Some fmt ->
  date_format kwargs = fmt /\ dt_format kwargs = fmt /\ time_format kwargs = fmt.
Proof. unfold date_format, dt_format, time_format. intros ->. auto. Qed.

(** *** Further properties of [sanitize_sheet] *)

Lemma sanitize_cell_depends_on_date_format (k1 k2 : gmap string string) (mode : Z)
    (type_ : cell_type) (value : cell_value) :
  k1 !! "date_format" = k2 !! "date_format" ->
  sanitize_cell k1 mode type_ value = sanitize_cell k2 mode type_ value.
Proof.
  intros H. unfold sanitize_cell. destruct (reclassify type_ value) as [k | e]; [| reflexivity].
  unfold switch, time_func, date_format, dt_format, time_format. rewrite H. reflexivity.
Qed.

Lemma sanitize_row_depends_on_date_format (k1 k2 : gmap string string) (mode : Z) (i : nat)
    (cells : list (cell_type * cell_value)) :
  k1 !! "date_format" = k2 !! "date_format" ->
  sanitize_row k1 mode i cells = sanitize_row k2 mode i cells.
Proof.
  intros H. induction cells as [| [type_ value] cells IH]; [reflexivity |].
  cbn [sanitize_row]. rewrite (sanitize_cell_depends_on_date_format k1 k2 mode _ _ H), IH.
  reflexivity.
Qed.

(** Of the keyword arguments [sanitize_sheet] reads [date_format] only: any
    other key, the documented [dt_format] and [time_format] included,
    changes nothing in its output. *)
Theorem sanitize_sheet_reads_date_format_only (kwargs : gmap string string) (mode : Z)
    (key fmt : string) (sh : sheet) (first_col : Z) :
  key <> "date_format" ->
  sanitize_sheet (<[key := fmt]> kwargs) mode sh first_col
  = sanitize_sheet kwargs mode sh first_col.
Proof.
  intros Hkey. unfold sanitize_sheet. generalize (seq 0 (length sh)). intros rows.
  assert (<[key := fmt]> kwargs !! "date_format" = kwargs !! "date_format") as H
    by (by apply lookup_insert_ne).
  induction rows as [| i rows IH]; [reflexivity |].
  cbn [sanitize_rows]. rewrite (sanitize_row_depends_on_date_format _ kwargs mode _ _ H), IH.
  reflexivity.
Qed.

(** A caller's [date_format] is the format of the time cells too: a date
    cell below 1 is rendered by [time.strftime] with that format, applied
    to the time of day that [xldate_as_tuple] gives; where [xldate_as_tuple]
    raises (a negative cell), its exception is the result. *)
Theorem date_format_is_used_for_time_cells (kwargs : gmap string string) (mode : Z)
    (fmt : string) (q : Q) :
  kwargs !! "date_format" = Some fmt ->
  (q < 1)%Q ->
  sanitize_cell kwargs mode XL_CELL_DATE (VNum q)
  = match xldate_as_tuple q mode with
    | Ok tuple => Ok (Str (time_strftime (drop 3 tuple) fmt))
    | Raise e => Raise e
    end.
Proof.
  intros Hfmt Hlt. rewrite sanitize_date_below_1 by exact Hlt.
  unfold on_number, time_func, time_format. rewrite Hfmt.
  destruct (xldate_as_tuple q mode); reflexivity.
Qed.

(** A cell that xlrd can render: a date cell holds a serial number that
    the conversion it goes through accepts ([xldate_as_tuple] below 1,
    [xldate_as_datetime] from 1 on), an error cell holds a code of
    [error_text_from_code]. *)
Definition is_ok {A : Type} (r : result A) : bool :=
  match r with
  | Ok _ => true
  | Raise _ => false
  end.

Definition readable (mode : Z) (cell : cell_type * cell_value) : bool :=
  match cell with
  | (XL_CELL_DATE, VNum q) =>
      if lt_1 (VNum q) then is_ok (xldate_as_tuple q mode) else is_ok (xl2dt q mode)
  | (XL_CELL_ERROR, VNum q) => bool_decide (is_Some (error_text_from_code q))
  | (XL_CELL_DATE, VText _) | (XL_CELL_ERROR, VText _) => false
  | _ => true
  end.

Lemma sanitize_cell_readable (kwargs : gmap string string) (mode : Z)
    (type_ : cell_type) (value : cell_value) :
  readable mode (type_, value) = true ->
  exists out, sanitize_cell kwargs mode type_ value = Ok out.
Proof.
  intros Hok. unfold sanitize_cell, reclassify.
  destruct type_, value; simpl in *; try discriminate; try (eexists; reflexivity).
  - destruct (Qlt_le_dec q 1); simpl; unfold time_func, date_func.
    + destruct (xldate_as_tuple q mode); [eexists; reflexivity | discriminate].
    + destruct (xl2dt q mode); [eexists; reflexivity | discriminate].
  - apply bool_decide_eq_true_1 in Hok as [text ->]. eexists; reflexivity.
Qed.

(** The converse: a date or an error cell that is not readable makes
    [sanitize_cell] raise. *)
Lemma sanitize_cell_unreadable (kwargs : gmap string string) (mode : Z)
    (type_ : cell_type) (value : cell_value) :
  readable mode (type_, value) = false ->
  exists e, sanitize_cell kwargs mode type_ value = Raise e.
Proof.
  intros Hno. unfold sanitize_cell, reclassify.
  destruct type_, value; simpl in *; try discriminate; try (eexists; reflexivity).
  - destruct (Qlt_le_dec q 1); simpl; unfold time_func, date_func.
    + destruct (xldate_as_tuple q mode); [discriminate | eexists; reflexivity].
    + destruct (xl2dt q mode); [discriminate | eexists; reflexivity].
  - destruct (error_text_from_code q) as [text |] eqn:Hcode; [| eexists; reflexivity].
    apply bool_decide_eq_false_1 in Hno. exfalso. apply Hno. eauto.
Qed.

Lemma sanitize_row_readable (kwargs : gmap string string) (mode : Z) (i : nat)
    (cells : list (cell_type * cell_value)) :
  Forall (fun cell => readable mode cell = true) cells ->
  ending (sanitize_row kwargs mode i cells) = None /\
  (yielded (sanitize_row kwargs mode i cells)).*1 = replicate (length cells) i.
Proof.
  induction 1 as [| [type_ value] cells Hcell _ [IHe IHy]]; [auto |].
  cbn [sanitize_row].
  destruct (sanitize_cell_readable kwargs mode type_ value Hcell) as [out ->].
  split; [exact IHe |]. cbn [yielded]. rewrite fmap_cons, IHy. reflexivity.
Qed.

Lemma slice_from_fmap {A B : Type} (f : A -> B) (n : Z) (l : list A) :
  slice_from n (f <$> l) = f <$> slice_from n l.
Proof. unfold slice_from. rewrite length_fmap. destruct (0 <=? n); by rewrite fmap_drop. Qed.

Lemma Forall_slice_from {A : Type} (P : A -> Prop) (n : Z) (l : list A) :
  Forall P l -> Forall P (slice_from n l).
Proof. intros H. unfold slice_from. destruct (0 <=? n); by apply Forall_drop. Qed.

Lemma zip_fst_snd {A B : Type} (l : list (A * B)) : zip l.*1 l.*2 = l.
Proof. induction l as [| [a b] l IH]; [reflexivity |]. simpl. f_equal. exact IH. Qed.

Lemma sanitize_rows_readable (kwargs : gmap string string) (mode : Z) (sh : sheet)
    (first_col : Z) (rows : list nat) :
  Forall (Forall (fun cell => readable mode cell = true)) sh ->
  ending (sanitize_rows kwargs mode sh first_col rows) = None /\
  (yielded (sanitize_rows kwargs mode sh first_col rows)).*1
  = flat_map (fun i => replicate (length (slice_from first_col (default [] (sh !! i)))) i) rows.
Proof.
  intros Hsheet. induction rows as [| i rows [IHe IHy]]; [auto |].
  cbn [sanitize_rows flat_map]. unfold row_types, row_values.
  rewrite !slice_from_fmap, zip_fst_snd.
  assert (Forall (fun cell => readable mode cell = true)
            (slice_from first_col (default [] (sh !! i)))) as Hrow.
  { apply Forall_slice_from. destruct (sh !! i) as [row |] eqn:Hi; simpl; [| constructor].
    rewrite Forall_forall in Hsheet. apply Hsheet. eapply list_elem_of_lookup_2; eauto. }
  destruct (sanitize_row_readable kwargs mode i _ Hrow) as [He Hy].
  rewrite He. simpl. rewrite fmap_app, Hy, IHy. auto.
Qed.


End Xlrd.

(** *** Examples, with stand-ins for xlrd: a datetime is the serial number
    with its datemode, for the serial numbers up to the last day of the year
    9999; a negative serial number has no time of day; [strftime] shows the
    format it was given; 42 is the one error code. *)

Definition show_format (fmt : string) : string := "<" +:+ fmt +:+ ">".

Definition sample_xl2dt (q : Q) (mode : Z) : result (Q * Z) :=
  if Qle_bool q 2958465 then Ok (q, mode)
  else Raise (mk_exn StandardError "date value out of range").

Definition sample_tuple (q : Q) (mode : Z) : result (list Z) :=
  if Qle_bool 0 q then Ok [0; 0; 0; 12; 0; 0]
  else Raise (mk_exn ValueError "XLDateNegative").

Definition sample_error_text (q : Q) : option string :=
  if Qeq_bool q 42 then Some "#N/A" else None.

Definition sample_sanitize_cell (kwargs : gmap string string) :=
  sanitize_cell (Q * Z) sample_xl2dt (fun _ fmt => show_format fmt)
    sample_tuple (fun _ fmt => show_format fmt) (fun _ => "1.0") sample_error_text kwargs 0.

Definition sample_sanitize_sheet (kwargs : gmap string string) :=
  sanitize_sheet (Q * Z) sample_xl2dt (fun _ fmt => show_format fmt)
    sample_tuple (fun _ fmt => show_format fmt) (fun _ => "1.0") sample_error_text kwargs 0.

(** The failing input of C3 with these stand-ins: the date format, where
    the specification has the datetime format. *)
Lemma fractional_date_example :
  sample_sanitize_sheet ∅ [[(XL_CELL_DATE, VNum (60151 # 2))]] 0
  = mk_run [(0%nat, Str "<%Y-%m-%d>")] None.
Proof. reflexivity. Qed.

(** A negative date cell and an unknown error code make it raise. *)
Lemma unreadable_cells_example :
  sample_sanitize_cell ∅ XL_CELL_DATE (VNum (-3 # 2)) = Raise (mk_exn ValueError "XLDateNegative") /\
  exists e, sample_sanitize_cell ∅ XL_CELL_ERROR (VNum 999) = Raise e /\ cls e = KeyError.
Proof. split; [reflexivity | eexists; split; reflexivity]. Qed.

Definition sample_rows : sheet :=
  [[(XL_CELL_TEXT, VText "a"); (XL_CELL_NUMBER, VNum 1); (XL_CELL_EMPTY, VText "")];
   [(XL_CELL_DATE, VNum (1 # 2)); (XL_CELL_TEXT, VText "b"); (XL_CELL_BLANK, VText "")]].

Lemma sanitize_sheet_reads_date_format_only_witness :
  sample_sanitize_sheet (<["time_format" := "%H:%M"]> ∅) sample_rows 0
  = sample_sanitize_sheet ∅ sample_rows 0.
Proof.
  apply (sanitize_sheet_reads_date_format_only (Q * Z)). discriminate.
Defined.

Lemma date_format_is_used_for_time_cells_witness :
  sample_sanitize_cell {["date_format" := "%d/%m/%Y"]} XL_CELL_DATE (VNum (1 # 2))
  = Ok (Str "<%d/%m/%Y>").
Proof.
  unfold sample_sanitize_cell.
  rewrite (date_format_is_used_for_time_cells (Q * Z) sample_xl2dt
             (fun _ fmt => show_format fmt) sample_tuple
             (fun _ fmt => show_format fmt) (fun _ => "1.0") sample_error_text
             {["date_format" := "%d/%m/%Y"]} 0 "%d/%m/%Y" (1 # 2)); reflexivity.
Defined.


End Sheet.

(** ** [read_xls] (io.py, lines 702-808), from the opened sheet on *)

Module Xls.

Import Sheet.

(** A record, [dict(zip(header, values))]: of two equal keys the last wins. *)
Definition record : Type := gmap string cell_out.

Definition dict (pairs : list (string * cell_out)) : record := list_to_map (reverse pairs).

(** [itertools.groupby(sanitized, lambda v: v[0])], with the values of each
    group: the runs of consecutive pairs that carry the same row number. *)
Fixpoint groupby (pairs : list (nat * cell_out)) : list (nat * list cell_out) :=
  match pairs with
  | [] => []
  | (k, v) :: pairs' =>
      match groupby pairs' with
      | (k', vs) :: groups =>
          if (k =? k')%nat then (k, v :: vs) :: groups else (k, [v]) :: (k', vs) :: groups
      | [] => [(k, [v])]
      end
  end.

(** The group in hand is read from the iterator one pair ahead: when the
    iterator fails, it fails while its last group is read or skipped. *)
Definition cut_short {A : Type} (rest : list A) (stop : option exn) : option exn :=
  match rest with
  | [] => stop
  | _ => None
  end.

Section ReadXls.

(** xlrd and the [datetime] module, as for [sanitize_sheet]. *)
Variable datetime : Type.
Variable xl2dt : Q -> Z -> result datetime.
Variable strftime : datetime -> string -> string.
Variable xldate_as_tuple : Q -> Z -> result (list Z).
Variable time_strftime : list Z -> string -> string.
Variable unicode_of_float : Q -> string.
Variable error_text_from_code : Q -> option string.

(** [unicode.strip()], and the two helpers of [fntools] for the names. *)
Variable strip : string -> string.
Variable underscorify : list string -> list string.
Variable dedupe : list string -> list string.

Definition no_strip : exn := mk_exn AttributeError "'float' object has no attribute 'strip'".

(** The truth value of [v and v.strip()]. *)
Definition nonblank (v : cell_out) : result bool :=
  match v with
  | Str s | Same (VText s) => Ok (negb (bool_decide (s = "")) && negb (bool_decide (strip s = "")))
  | Same (VNum q) => if Qeq_bool q 0 then Ok false else Raise no_strip
  end.

(** [any(v and v.strip() for v in values)]: it stops at the first true one. *)
Fixpoint any_nonblank (values : list cell_out) : result bool :=
  match values with
  | [] => Ok false
  | v :: values' =>
      match nonblank v with
      | Raise e => Raise e
      | Ok true => Ok true
      | Ok false => any_nonblank values'
      end
  end.

(** [[name for name in names if name.strip()]] *)
Fixpoint stripped (names : list cell_value) : result (list string) :=
  match names with
  | [] => Ok []
  | VNum _ :: _ => Raise no_strip
  | VText s :: names' =>
      match stripped names' with
      | Raise e => Raise e
      | Ok l => Ok (if bool_decide (strip s = "") then l else s :: l)
      end
  end.

Definition column (n : nat) : string := "column_" +:+ pretty (n + 1)%nat.

(** The header: the names of the row [first_row], or [column_1], ... *)
Definition header_of (sh : sheet) (has_header sanitize dedupe_names : bool)
    (first_row : nat) (first_col : Z) : result (list string) :=
  match sh !! first_row with
  | None => Raise (mk_exn IndexError "list index out of range")
  | Some row =>
      let names := slice_from first_col row.*2 in
      if has_header then
        match stripped names with
        | Raise e => Raise e
        | Ok l =>
            let uscored := if sanitize then underscorify l else l in
            Ok (if dedupe_names then dedupe uscored else uscored)
        end
      else Ok (map column (seq 0 (length names)))
  end.

(** The loop over the groups. *)
Fixpoint records (has_header : bool) (first_row : nat) (header : list string)
    (groups : list (nat * list cell_out)) (stop : option exn) : run record :=
  match groups with
  | [] => mk_run [] stop
  | (key, values) :: groups' =>
      match cut_short groups' stop with
      | Some e => mk_run [] (Some e)
      | None =>
          if has_header && (key =? first_row)%nat then records has_header first_row header groups' stop
          else
            match any_nonblank values with
            | Raise e => mk_run [] (Some e)
            | Ok false => records has_header first_row header groups' stop
            | Ok true =>
                let r := records has_header first_row header groups' stop in
                mk_run (dict (zip header values) :: yielded r) (ending r)
            end
      end
  end.

(** [read_xls] on the sheet [sh] of a workbook whose date mode is [mode];
    [formats] holds the keyword arguments that are texts. *)
Definition read_xls (sh : sheet) (mode : Z) (formats : gmap string string)
    (has_header sanitize dedupe_names : bool) (first_row : nat) (first_col : Z) : run record :=
  match header_of sh has_header sanitize dedupe_names first_row first_col with
  | Raise e => mk_run [] (Some e)
  | Ok header =>
      let sanitized :=
        sanitize_sheet datetime xl2dt strftime xldate_as_tuple time_strftime unicode_of_float
          error_text_from_code formats mode sh first_col in
      records has_header first_row header (groupby (yielded sanitized)) (ending sanitized)
  end.

(** *** The rows come back as they went in *)

Local Abbreviation sanitize_cell' :=
  (sanitize_cell datetime xl2dt strftime xldate_as_tuple time_strftime unicode_of_float
     error_text_from_code).
Local Abbreviation sanitize_row' :=
  (sanitize_row datetime xl2dt strftime xldate_as_tuple time_strftime unicode_of_float
     error_text_from_code).
Local Abbreviation sanitize_rows' :=
  (sanitize_rows datetime xl2dt strftime xldate_as_tuple time_strftime unicode_of_float
     error_text_from_code).

(** A cell as xlrd delivers it and can render it: a date or an error cell
    is readable ([Sheet.readable]: a serial number that xlrd's conversion
    accepts, a known error code), a text or a blank cell holds a text. *)
Definition typed (mode : Z) (cell : cell_type * cell_value) : bool :=
  readable datetime xl2dt xldate_as_tuple error_text_from_code mode cell
  && match cell with
     | (XL_CELL_TEXT, VNum _) | (XL_CELL_BLANK, VNum _) => false
     | _ => true
     end.

(** The sanitized values of a row. *)
Definition cell_outs (formats : gmap string string) (mode : Z)
    (cells : list (cell_type * cell_value)) : list cell_out :=
  omap (fun '(type_, value) =>
          match sanitize_cell' formats mode type_ value with
          | Ok out => Some out
          | Raise _ => None
          end) cells.

Definition row_out (formats : gmap string string) (mode : Z) (sh : sheet) (first_col : Z)
    (i : nat) : list cell_out :=
  cell_outs formats mode (slice_from first_col (default [] (sh !! i))).

(** What [nonblank] answers on a text. *)
Definition text_nonblank (v : cell_out) : bool :=
  match v with
  | Str s | Same (VText s) => negb (bool_decide (s = "")) && negb (bool_decide (strip s = ""))
  | Same (VNum _) => false
  end.

Definition is_text (v : cell_out) : Prop :=
  match v with
  | Same (VNum _) => False
  | _ => True
  end.

Lemma sanitize_cell_typed (formats : gmap string string) (mode : Z) (type_ : cell_type)
    (value : cell_value) :
  typed mode (type_, value) = true ->
  exists out, sanitize_cell' formats mode type_ value = Ok out /\ is_text out.
Proof.
  intros [Hread Htext]%andb_true_iff.
  destruct (sanitize_cell_readable datetime xl2dt strftime xldate_as_tuple time_strftime
              unicode_of_float error_text_from_code formats mode type_ value Hread)
    as [out Hout].
  exists out. split; [exact Hout |].
  unfold sanitize_cell, reclassify in Hout.
  destruct type_, value; simpl in *; try discriminate;
    try (injection Hout as <-; exact I).
  - destruct (Qlt_le_dec q 1); simpl in Hout; unfold time_func, date_func in Hout.
    + destruct (xldate_as_tuple q mode); [injection Hout as <-; exact I | discriminate].
    + destruct (xl2dt q mode); [injection Hout as <-; exact I | discriminate].
  - destruct (error_text_from_code q); [injection Hout as <-; exact I | discriminate].
Qed.

Lemma sanitize_row_typed (formats : gmap string string) (mode : Z) (i : nat)
    (cells : list (cell_type * cell_value)) :
  Forall (fun cell => typed mode cell = true) cells ->
  sanitize_row' formats mode i cells = mk_run (map (pair i) (cell_outs formats mode cells)) None /\
  Forall is_text (cell_outs formats mode cells).
Proof.
  induction 1 as [| [type_ value] cells Hcell _ [IHrun IHtext]]; [by split |].
  cbn [sanitize_row cell_outs omap list_omap].
  destruct (sanitize_cell_typed formats mode type_ value Hcell) as (out & -> & Hout).
  fold (cell_outs formats mode cells). rewrite IHrun. split; [reflexivity |].
  by constructor.
Qed.

Lemma row_typed (mode : Z) (sh : sheet) (first_col : Z) (i : nat) :
  Forall (Forall (fun cell => typed mode cell = true)) sh ->
  Forall (fun cell => typed mode cell = true) (slice_from first_col (default [] (sh !! i))).
Proof.
  intros Hsheet. apply Forall_slice_from.
  destruct (sh !! i) as [row |] eqn:Hi; simpl; [| constructor].
  rewrite Forall_forall in Hsheet. apply Hsheet. eapply list_elem_of_lookup_2; eauto.
Qed.

Lemma sanitize_rows_typed (formats : gmap string string) (mode : Z) (sh : sheet)
    (first_col : Z) (rows : list nat) :
  Forall (Forall (fun cell => typed mode cell = true)) sh ->
  sanitize_rows' formats mode sh first_col rows
  = mk_run (flat_map (fun i => map (pair i) (row_out formats mode sh first_col i)) rows) None.
Proof.
  intros Hsheet. induction rows as [| i rows IH]; [reflexivity |].
  cbn [sanitize_rows flat_map]. unfold row_types, row_values.
  rewrite !slice_from_fmap, zip_fst_snd.
  destruct (sanitize_row_typed formats mode i _ (row_typed mode sh first_col i Hsheet)) as [-> _].
  cbn [ending yielded]. rewrite IH. reflexivity.
Qed.

(** The head of the groups has the key of the head of the pairs. *)
Lemma groupby_head (pairs : list (nat * cell_out)) :
  match pairs, groupby pairs with
  | [], [] => True
  | (k, _) :: _, (k', _) :: _ => k = k'
  | _, _ => False
  end.
Proof.
  destruct pairs as [| [k v] pairs]; [exact I |].
  cbn [groupby]. destruct (groupby pairs) as [| [k' vs] groups]; [reflexivity |].
  destruct (k =? k')%nat; reflexivity.
Qed.

(** The pairs of one row, in front of pairs that start with another row
    number, make one group. *)
Lemma groupby_row (i : nat) (v : cell_out) (vs : list cell_out) (rest : list (nat * cell_out)) :
  match rest with [] => True | (k, _) :: _ => k <> i end ->
  groupby (map (pair i) (v :: vs) ++ rest) = (i, v :: vs) :: groupby rest.
Proof.
  intros Hrest. revert v. induction vs as [| v' vs IH]; intros v.
  - cbn [map app groupby]. pose proof (groupby_head rest) as Hhead.
    destruct rest as [| [k w] rest'], (groupby _) as [| [k' ws] groups] eqn:Hg;
      try contradiction; [reflexivity |].
    subst k'. destruct (Nat.eqb_spec i k) as [-> | _]; [contradiction | reflexivity].
  - change (map (pair i) (v :: v' :: vs) ++ rest)
      with ((i, v) :: (map (pair i) (v' :: vs) ++ rest)).
    cbn [groupby]. rewrite IH. by rewrite Nat.eqb_refl.
Qed.

Lemma flat_map_rows_head (row : nat -> list cell_out) (a n : nat) :
  match flat_map (fun i => map (pair i) (row i)) (seq (S a) n) with
  | [] => True
  | (k, _) :: _ => k <> a
  end.
Proof.
  assert (Forall (fun p => a < p.1)%nat
            (flat_map (fun i => map (pair i) (row i)) (seq (S a) n))) as Hall.
  { apply Forall_flat_map. apply Forall_forall. intros i Hi%elem_of_seq.
    apply Forall_forall. intros p Hp. apply list_elem_of_fmap in Hp as (w & -> & _).
    simpl. lia. }
  destruct (flat_map _ _) as [| [k w] l]; [exact I |].
  apply Forall_cons in Hall as [Hk _]. simpl in Hk. lia.
Qed.

Lemma groupby_rows (row : nat -> list cell_out) (n : nat) :
  forall a : nat,
  groupby (flat_map (fun i => map (pair i) (row i)) (seq a n))
  = omap (fun i => match row i with [] => None | _ => Some (i, row i) end) (seq a n).
Proof.
  induction n as [| n IH]; intros a; [reflexivity |].
  cbn [seq flat_map omap list_omap].
  destruct (row a) as [| v vs] eqn:Hrow.
  - cbn [map app]. apply IH.
  - rewrite groupby_row by apply flat_map_rows_head. by rewrite IH.
Qed.

Lemma any_nonblank_text (values : list cell_out) :
  Forall is_text values -> any_nonblank values = Ok (existsb text_nonblank values).
Proof.
  induction 1 as [| v values Hv _ IH]; [reflexivity |].
  cbn [any_nonblank existsb].
  destruct v as [s | [q | s]]; try contradiction; cbn [nonblank text_nonblank];
    destruct (negb (bool_decide (s = "")) && negb (bool_decide (strip s = "")));
    try reflexivity; exact IH.
Qed.

(** Which rows become records: not the header row, and only a row that
    has a cell that is not blank. *)
Definition kept (has_header : bool) (first_row : nat) (values : list cell_out) (i : nat) : bool :=
  negb (has_header && (i =? first_row)%nat) && existsb text_nonblank values.

Lemma records_rows (has_header : bool) (first_row : nat) (header : list string)
    (row : nat -> list cell_out) (rows : list nat) :
  (forall i, Forall is_text (row i)) ->
  records has_header first_row header
    (omap (fun i => match row i with [] => None | _ => Some (i, row i) end) rows) None
  = mk_run (omap (fun i => if kept has_header first_row (row i) i
                           then Some (dict (zip header (row i))) else None) rows) None.
Proof.
  intros Htext. induction rows as [| i rows IH]; [reflexivity |].
  cbn [omap list_omap]. unfold kept at 1.
  destruct (row i) as [| v vs] eqn:Hrow.
  - cbn [existsb]. rewrite andb_false_r. exact IH.
  - cbn [records].
    replace (cut_short _ None) with (@None exn) by (by destruct (omap _ rows)).
    destruct (has_header && (i =? first_row)%nat); cbn [negb andb]; [exact IH |].
    rewrite any_nonblank_text by (rewrite <- Hrow; apply Htext).
    destruct (existsb text_nonblank (v :: vs)); [| exact IH].
    fold (omap (fun i => match row i with [] => None | _ => Some (i, row i) end) rows).
    rewrite IH. reflexivity.
Qed.


End ReadXls.

(** *** An example, with the stand-ins for xlrd of [Sheet]: a note above
    the header row, the header, a row of data and a blank row. *)

Definition sample_book : sheet :=
  [[(XL_CELL_TEXT, VText "note"); (XL_CELL_TEXT, VText "x")];
   [(XL_CELL_TEXT, VText "name"); (XL_CELL_TEXT, VText "born")];
   [(XL_CELL_TEXT, VText "Ada"); (XL_CELL_DATE, VNum 5000)];
   [(XL_CELL_BLANK, VText ""); (XL_CELL_EMPTY, VText "")]].

Definition sample_read_xls :=
  read_xls (Q * Z) sample_xl2dt (fun _ fmt => show_format fmt)
    sample_tuple (fun _ fmt => show_format fmt)
    (fun _ => "1.0") sample_error_text (fun s => s) (fun l => l) (fun l => l).


End Xls.

(** ** [write] (io.py, lines 886-948) *)

Module Writer.

Import Driver.

(** What is written: a unicode text, a byte string, or a list of one-byte
    strings (a value that has [sort]). *)
Inductive content : Type :=
| Unicode (cs : list N)
| Bytes (bs : list Byte.byte)
| Items (xs : list (list Byte.byte)).

(** [len(c)] *)
Definition len (c : content) : Z :=
  match c with
  | Unicode cs => Z.of_nat (length cs)
  | Bytes bs => Z.of_nat (length bs)
  | Items xs => Z.of_nat (length xs)
  end.

(** The pieces of [size] elements of a list, the last one possibly shorter. *)
Fixpoint pieces {A : Type} (fuel size : nat) (l : list A) : list (list A) :=
  match fuel with
  | O => []
  | S k => match l with
           | [] => []
           | _ => take size l :: pieces k size (drop size l)
           end
  end.

(** Modelled from the spec: [fntools.chunk] (section 4.1), a sequence of
    pieces of [content], each at most [chunksize] elements long; when
    [chunksize] is unset or zero the content is the single piece.  (A
    negative [chunksize] is read as unset.) *)
Definition chunk (c : content) (chunksize : Z) : list content :=
  if chunksize <=? 0 then [c]
  else
    let n := Z.to_nat chunksize in
    match c with
    | Unicode cs => map Unicode (pieces (length cs) n cs)
    | Bytes bs => map Bytes (pieces (length bs) n bs)
    | Items xs => map Items (pieces (length xs) n xs)
    end.

(** The truth value and the integer value of a keyword argument. *)
Definition truthy (k : option kwarg) : bool :=
  match k with
  | None | Some KNone => false
  | Some (KBool b) => b
  | Some (KInt n) => negb (n =? 0)
  | Some (KStr s) => negb (bool_decide (s = ""))
  end.

Section Write.

(** [int(text)], and the codec of [ENCODING]. *)
Variable int_of_string : string -> Z.
Variable encode : list N -> list Byte.byte.

Definition int_of (k : option kwarg) : Z :=
  match k with
  | None | Some KNone => 0
  | Some (KBool b) => Z.b2z b
  | Some (KInt n) => n
  | Some (KStr s) => int_of_string s
  end.

(** The three branches on a piece. *)
Definition encoded (c : content) : list Byte.byte :=
  match c with
  | Unicode cs => encode cs
  | Items xs => concat xs
  | Bytes bs => bs
  end.

Definition repeat_char (a : Ascii.ascii) (n : Z) : string :=
  String.string_of_list_ascii (replicate (Z.to_nat n) a).

(** ['\r[%s%s]' % ('=' * bars, ' ' * (bar_len - bars))] *)
Definition progress_bar (bars bar_len : Z) : string :=
  String (Ascii.ascii_of_nat 13)
    ("[" +:+ repeat_char (Ascii.ascii_of_nat 61) bars
         +:+ repeat_char (Ascii.ascii_of_nat 32) (bar_len - bars) +:+ "]").

(** The loop of [_write]: the file, the progress count and the lines printed. *)
Fixpoint write_chunks (chunksize : option kwarg) (length bar_len : Z)
    (f : file) (progress : Z) (printed : list string) (cs : list content)
    : file * Z * list string :=
  match cs with
  | [] => (f, progress, printed)
  | c :: cs' =>
      let f' := fwrite f (encoded c) in
      let progress' := progress + (if truthy chunksize then int_of chunksize else len c) in
      let printed' :=
        if negb (length =? 0)
        then printed ++ [progress_bar (Z.min (Z.quot (bar_len * progress') length) bar_len) bar_len]
        else printed in
      write_chunks chunksize length bar_len f' progress' printed' cs'
  end.

Definition _write_state (f : file) (c : content) (kwargs : gmap string kwarg)
    : file * Z * list string :=
  let chunksize := kwargs !! "chunksize" in
  let length := int_of (if truthy (kwargs !! "length") then kwargs !! "length" else Some (KInt 0)) in
  let bar_len := match kwargs !! "bar_len" with Some k => int_of (Some k) | None => 50 end in
  write_chunks chunksize length bar_len f 0 [] (chunk c (int_of chunksize)).

(** [_write(f, content, **kwargs)] as a reader: it yields the progress
    count once. *)
Definition _write : @reader_fn Z content :=
  fun f args kwargs =>
    match args with
    | [c] => let '(f', progress, _) := _write_state f c kwargs in (mk_run [progress] None, f')
    | _ => (mk_run [] (Some (mk_exn TypeError "_write() takes exactly 2 arguments")), f)
    end.

(** chardet and the codecs that [read_any] may call. *)
Variable detector : Type.
Variable new_detector : detector.
Variable feed : detector -> list Byte.byte -> detector.
Variable done : detector -> bool.
Variable close : detector -> detector.
Variable detector_result : detector -> detection.
Variable ENCODING : string.
Variable decode_default : list Byte.byte -> result (list N).
Variable unicode : list Byte.byte -> option kwarg -> result (list N).

(** [generator.next()] *)
Definition next {R : Type} (r : run R) : result R :=
  match yielded r, ending r with
  | x :: _, _ => Ok x
  | [], Some e => Raise e
  | [], None => Raise (mk_exn StopIteration "")
  end.

(** [write]: the value returned, and the destination file as it is left. *)
Definition write (fs : gmap string (list Byte.byte)) (filepath : source) (c : content)
    (mode : string) (kwargs : gmap string kwarg) : result Z * option file :=
  let '(r, f) :=
    read_any detector new_detector feed done close detector_result ENCODING encode
      decode_default unicode fs filepath _write mode [c] kwargs in
  (next r, f).

(** *** What the returned count is *)

Lemma write_chunks_spec (chunksize : option kwarg) (cs : list content) :
  forall (f : file) (progress : Z) (printed : list string),
  let '(f', progress', _) := write_chunks chunksize 0 50 f progress printed cs in
  progress' = progress +
    foldr Z.add 0 (map (fun c => if truthy chunksize then int_of chunksize else len c) cs) /\
  f' = foldl fwrite f (map encoded cs).
Proof.
  induction cs as [| c cs IH]; intros f progress printed; simpl.
  - split; [lia | reflexivity].
  - specialize (IH (fwrite f (encoded c))
                   (progress + (if truthy chunksize then int_of chunksize else len c)) printed).
    destruct (write_chunks chunksize 0 50 _ _ _ cs) as [[f' progress'] out].
    destruct IH as [-> ->]. split; [lia | reflexivity].
Qed.

(** C4, at the failing input.  The eleven bytes of [Hello World] written
    in pieces of two: [write] returns 12, six times the chunk size, while
    the destination holds the 11 bytes written. *)
Theorem write_returns_chunk_multiple_not_bytes_written :
  write ∅ (Path "out.txt") (Bytes (String.list_byte_of_string "Hello World")) "wb+"
        {["chunksize" := KInt 2]}
  = (Ok 12, Some {| data := String.list_byte_of_string "Hello World"; offset := 11 |}).
Proof. reflexivity. Qed.

(** The same content in one piece: the count is the number of bytes. *)
Lemma write_whole_bytes_returns_length :
  write ∅ (Path "out.txt") (Bytes (String.list_byte_of_string "Hello World")) "wb+" ∅
  = (Ok 11, Some {| data := String.list_byte_of_string "Hello World"; offset := 11 |}).
Proof. reflexivity. Qed.

(** *** Further properties of [write] *)

(** The keyword arguments as the docstring types them: [chunksize],
    [length] and [bar_len] are integers ([chunksize] not below 0) or are not
    given. *)
Definition int_or_unset (k : option kwarg) : bool :=
  match k with
  | None | Some KNone | Some (KInt _) => true
  | _ => false
  end.

Definition documented (kwargs : gmap string kwarg) : bool :=
  match kwargs !! "chunksize" with
  | None | Some KNone => true
  | Some (KInt n) => 0 <=? n
  | _ => false
  end
  && int_or_unset (kwargs !! "length")
  && match kwargs !! "bar_len" with None | Some (KInt _) => true | _ => false end.

Lemma pieces_concat {A : Type} (size : nat) (fuel : nat) :
  forall l : list A, (0 < size)%nat -> (length l <= fuel)%nat ->
  concat (pieces fuel size l) = l.
Proof.
  induction fuel as [| fuel IH]; intros l Hsize Hfuel.
  - destruct l; [reflexivity | simpl in Hfuel; lia].
  - destruct l as [| x l]; [reflexivity |].
    cbn [pieces concat]. rewrite IH; [apply take_drop | exact Hsize |].
    rewrite length_drop. simpl in *. lia.
Qed.

Lemma pieces_count {A : Type} (size : nat) (fuel : nat) :
  forall l : list A, (0 < size)%nat -> (length l <= fuel)%nat ->
  (length l <= size * length (pieces fuel size l) < length l + size)%nat.
Proof.
  induction fuel as [| fuel IH]; intros l Hsize Hfuel.
  - destruct l; simpl in *; lia.
  - destruct l as [| x l]; [simpl; lia |].
    cbn [pieces length].
    assert (length (drop size (x :: l)) <= fuel)%nat as Hshort
      by (rewrite length_drop; simpl in *; lia).
    specialize (IH (drop size (x :: l)) Hsize Hshort).
    rewrite length_drop in IH. revert IH.
    generalize (length (pieces fuel size (drop size (x :: l)))). intros k IH.
    cbn [length] in *. rewrite Nat.mul_succ_r.
    destruct k as [| k]; [lia |]. rewrite Nat.mul_succ_r in *. lia.
Qed.

Lemma fwrite_at_end (f : file) (bs : list Byte.byte) :
  offset f = length (data f) ->
  fwrite f bs = {| data := data f ++ bs; offset := length (data f ++ bs) |}.
Proof.
  intros H. unfold fwrite. rewrite H, take_ge, drop_ge, app_nil_r, length_app by lia.
  reflexivity.
Qed.

Lemma foldl_fwrite_at_end (bss : list (list Byte.byte)) :
  forall f : file, offset f = length (data f) ->
  foldl fwrite f bss
  = {| data := data f ++ concat bss; offset := length (data f ++ concat bss) |}.
Proof.
  induction bss as [| bs bss IH]; intros f H; simpl.
  - rewrite app_nil_r. destruct f. simpl in *. by subst.
  - rewrite IH by (rewrite fwrite_at_end by exact H; reflexivity).
    rewrite fwrite_at_end by exact H. simpl. by rewrite <- app_assoc.
Qed.

Lemma write_chunks_result (chunksize : option kwarg) (total bar_len : Z) (cs : list content) :
  forall (f : file) (progress : Z) (printed : list string),
  (write_chunks chunksize total bar_len f progress printed cs).1.1
  = foldl fwrite f (map encoded cs) /\
  (write_chunks chunksize total bar_len f progress printed cs).1.2
  = progress + foldr Z.add 0
                 (map (fun c => if truthy chunksize then int_of chunksize else len c) cs) /\
  length (write_chunks chunksize total bar_len f progress printed cs).2
  = (length printed + if (total =? 0)%Z then 0 else length cs)%nat.
Proof.
  induction cs as [| c cs IH]; intros f progress printed;
    cbn [write_chunks map foldl foldr fst snd].
  - repeat split; [lia | destruct (total =? 0); simpl; lia].
  - destruct (IH (fwrite f (encoded c))
                 (progress + (if truthy chunksize then int_of chunksize else len c))
                 (if negb (total =? 0)
                  then printed ++
                       [progress_bar
                          (Z.min (Z.quot (bar_len *
                             (progress + (if truthy chunksize then int_of chunksize else len c)))
                             total) bar_len) bar_len]
                  else printed)) as (-> & -> & ->).
    repeat split; [lia |].
    destruct (total =? 0); simpl; [lia |]. rewrite length_app. simpl. lia.
Qed.

(** The run of [write] on a path in the default mode, spelled out. *)
Lemma write_on_path (fs : gmap string (list Byte.byte)) (path : string) (c : content)
    (kwargs : gmap string kwarg) :
  write fs (Path path) c "wb+" kwargs
  = (Ok (_write_state {| data := []; offset := 0 |} c kwargs).1.2,
     Some (_write_state {| data := []; offset := 0 |} c kwargs).1.1).
Proof.
  unfold write, read_any, opened, py_open, _read_any, _write. simpl.
  destruct (_write_state {| data := []; offset := 0 |} c kwargs) as [[f' progress] printed].
  reflexivity.
Qed.

Lemma pieces_morphism {A B : Type} (g : list A -> list B) (size : nat) :
  (forall a b, g (a ++ b) = g a ++ g b) -> g [] = [] -> (0 < size)%nat ->
  forall (fuel : nat) (l : list A), (length l <= fuel)%nat ->
  concat (map g (pieces fuel size l)) = g l.
Proof.
  intros Happ Hnil Hsize. induction fuel as [| fuel IH]; intros l Hfuel.
  - destruct l; [by rewrite Hnil | simpl in Hfuel; lia].
  - destruct l as [| x l]; [by rewrite Hnil |].
    cbn [pieces map concat]. rewrite IH by (rewrite length_drop; simpl in *; lia).
    by rewrite <- Happ, take_drop.
Qed.

Lemma encoded_chunk (c : content) (chunksize : Z) :
  (forall a b, encode (a ++ b) = encode a ++ encode b) -> encode [] = [] ->
  concat (map encoded (chunk c chunksize)) = encoded c.
Proof.
  intros Happ Hnil. unfold chunk. destruct (chunksize <=? 0) eqn:Hn.
  - simpl. by rewrite app_nil_r.
  - apply Z.leb_gt in Hn.
    destruct c as [cs | bs | xs]; rewrite map_map; cbn [encoded].
    + apply (pieces_morphism encode); auto; lia.
    + apply (pieces_morphism (fun bs => bs)); auto; lia.
    + apply (pieces_morphism (@concat Byte.byte)); auto; [apply concat_app | lia].
Qed.

(** Whatever the chunk size, [write] on a path stores the whole content,
    encoded, and nothing else: chunking changes the count returned, not the
    file.  (For a text the codec must encode a concatenation piece by
    piece, as UTF-8 does.) *)
Theorem write_stores_whole_content (fs : gmap string (list Byte.byte)) (path : string)
    (c : content) (kwargs : gmap string kwarg) :
  documented kwargs = true ->
  (forall a b, encode (a ++ b) = encode a ++ encode b) -> encode [] = [] ->
  (write fs (Path path) c "wb+" kwargs).2
  = Some {| data := encoded c; offset := length (encoded c) |}.
Proof.
  intros _ Happ Hnil. rewrite write_on_path. cbn [snd]. f_equal.
  unfold _write_state.
  destruct (write_chunks_result (kwargs !! "chunksize")
              (int_of (if truthy (kwargs !! "length") then kwargs !! "length"
                       else Some (KInt 0)))
              (match kwargs !! "bar_len" with Some k => int_of (Some k) | None => 50 end)
              (chunk c (int_of (kwargs !! "chunksize")))
              {| data := []; offset := 0 |} 0 []) as (-> & _ & _).
  rewrite foldl_fwrite_at_end by reflexivity. cbn [data app].
  by rewrite encoded_chunk.
Qed.

(** With a chunk size [n] above 0, [write] of a byte string returns the
    least multiple of [n] that is not below the number of bytes written: it
    overcounts by less than [n], and is exact only when [n] divides the
    size. *)
Theorem write_returns_least_multiple_of_chunksize (fs : gmap string (list Byte.byte))
    (path : string) (bs : list Byte.byte) (kwargs : gmap string kwarg) (n : Z) :
  documented kwargs = true ->
  kwargs !! "chunksize" = Some (KInt n) -> 0 < n ->
  exists v, (write fs (Path path) (Bytes bs) "wb+" kwargs).1 = Ok v /\
            Z.of_nat (length bs) <= v < Z.of_nat (length bs) + n /\ v mod n = 0.
Proof.
  intros _ Hchunk Hn. rewrite write_on_path. cbn [fst]. eexists. split; [reflexivity |].
  unfold _write_state.
  destruct (write_chunks_result (kwargs !! "chunksize")
              (int_of (if truthy (kwargs !! "length") then kwargs !! "length"
                       else Some (KInt 0)))
              (match kwargs !! "bar_len" with Some k => int_of (Some k) | None => 50 end)
              (chunk (Bytes bs) (int_of (kwargs !! "chunksize")))
              {| data := []; offset := 0 |} 0 []) as (_ & -> & _).
  rewrite Hchunk. cbn [truthy int_of]. unfold chunk.
  destruct (Z.leb_spec n 0) as [Hle | _]; [lia |].
  destruct (Z.eqb_spec n 0) as [-> | _]; [lia |]. cbn [negb].
  pose proof (pieces_count (Z.to_nat n) (length bs) bs ltac:(lia) ltac:(lia)) as Hcount.
  revert Hcount. generalize (pieces (length bs) (Z.to_nat n) bs). intros ps Hcount.
  assert (foldr Z.add 0 (map (fun _ : content => n) (map Bytes ps)) = n * Z.of_nat (length ps))
    as ->.
  { clear. induction ps as [| x ps IH]; simpl; [lia |]. rewrite IH. lia. }
  split; [nia |]. rewrite Z.mul_comm. apply Z_mod_mult.
Qed.

(** Without a chunk size the content is one piece and [write] returns
    [len] of it: the number of bytes of a byte string, but the number of
    characters of a text, whatever their encoded size. *)
Theorem write_without_chunksize_returns_len (fs : gmap string (list Byte.byte))
    (path : string) (c : content) (kwargs : gmap string kwarg) :
  documented kwargs = true ->
  kwargs !! "chunksize" = None ->
  (write fs (Path path) c "wb+" kwargs).1 = Ok (len c).
Proof.
  intros _ Hchunk. rewrite write_on_path. cbn [fst]. f_equal.
  unfold _write_state.
  destruct (write_chunks_result (kwargs !! "chunksize")
              (int_of (if truthy (kwargs !! "length") then kwargs !! "length"
                       else Some (KInt 0)))
              (match kwargs !! "bar_len" with Some k => int_of (Some k) | None => 50 end)
              (chunk c (int_of (kwargs !! "chunksize")))
              {| data := []; offset := 0 |} 0 []) as (_ & -> & _).
  rewrite Hchunk. simpl. lia.
Qed.

(** The progress bar is printed once per piece when [length] is given and
    not 0, and never otherwise. *)
Theorem write_prints_one_bar_per_piece (f : file) (c : content) (kwargs : gmap string kwarg) :
  documented kwargs = true ->
  let total := int_of (if truthy (kwargs !! "length") then kwargs !! "length"
                       else Some (KInt 0)) in
  length (_write_state f c kwargs).2
  = if total =? 0 then 0%nat else length (chunk c (int_of (kwargs !! "chunksize"))).
Proof.
  intros _ total. subst total. unfold _write_state.
  destruct (write_chunks_result (kwargs !! "chunksize")
              (int_of (if truthy (kwargs !! "length") then kwargs !! "length"
                       else Some (KInt 0)))
              (match kwargs !! "bar_len" with Some k => int_of (Some k) | None => 50 end)
              (chunk c (int_of (kwargs !! "chunksize"))) f 0 []) as (_ & _ & ->).
  reflexivity.
Qed.

End Write.

(** A text in one piece: the count is the number of characters, not of
    the bytes written (the two-byte [U+00F1]). *)
Lemma write_text_returns_characters :
  write (fun _ => 0) utf8 unit tt (fun d _ => d) (fun _ => false) id
    (fun _ => {| confidence := 0; encoding := None |}) "utf-8"
    (fun _ => Ok []) (fun _ _ => Ok [])
    ∅ (Path "out.txt") (Unicode [241%N]) "wb+" ∅
  = (Ok 1, Some {| data := [xc3; xb1]%byte; offset := 2 |}).
Proof. reflexivity. Qed.

(** *** Examples of the further properties, with the UTF-8 codec *)

Lemma utf8_app (a b : list N) : utf8 (a ++ b) = utf8 a ++ utf8 b.
Proof. unfold utf8. by rewrite map_app, concat_app. Qed.

Definition no_detection (d : unit) : detection := {| confidence := 0; encoding := None |}.

Definition sample_write :=
  write (fun _ => 0) utf8 unit tt (fun d _ => d) (fun _ => false) id no_detection "utf-8"
    (fun _ => Ok []) (fun _ _ => Ok []).

Definition by_two : gmap string kwarg := {["chunksize" := KInt 2]}.

Lemma write_stores_whole_content_witness :
  (sample_write ∅ (Path "out.txt") (Unicode [241; 241; 241]%N) "wb+" by_two).2
  = Some {| data := [xc3; xb1; xc3; xb1; xc3; xb1]%byte; offset := 6 |}.
Proof.
  exact (write_stores_whole_content (fun _ => 0) utf8 unit tt (fun d _ => d) (fun _ => false)
           id no_detection "utf-8" (fun _ => Ok []) (fun _ _ => Ok [])
           ∅ "out.txt" (Unicode [241; 241; 241]%N) by_two eq_refl utf8_app eq_refl).
Defined.

Lemma write_returns_least_multiple_of_chunksize_witness :
  exists v, (sample_write ∅ (Path "out.txt")
               (Bytes (String.list_byte_of_string "Hello World")) "wb+" by_two).1 = Ok v /\
            11 <= v < 13 /\ v mod 2 = 0.
Proof.
  exact (write_returns_least_multiple_of_chunksize (fun _ => 0) utf8 unit tt (fun d _ => d)
           (fun _ => false) id no_detection "utf-8" (fun _ => Ok []) (fun _ _ => Ok [])
           ∅ "out.txt" (String.list_byte_of_string "Hello World") by_two 2
           eq_refl ltac:(vm_compute; reflexivity) ltac:(lia)).
Defined.

Lemma write_without_chunksize_returns_len_witness :
  (sample_write ∅ (Path "out.txt") (Unicode [241; 241; 241]%N) "wb+" ∅).1 = Ok 3.
Proof.
  exact (write_without_chunksize_returns_len (fun _ => 0) utf8 unit tt (fun d _ => d)
           (fun _ => false) id no_detection "utf-8" (fun _ => Ok []) (fun _ _ => Ok [])
           ∅ "out.txt" (Unicode [241; 241; 241]%N) ∅ eq_refl eq_refl).
Defined.

Definition with_length : gmap string kwarg := {["chunksize" := KInt 2; "length" := KInt 11]}.

Lemma write_prints_one_bar_per_piece_witness :
  length (_write_state (fun _ => 0) utf8 {| data := []; offset := 0 |}
            (Bytes (String.list_byte_of_string "Hello World")) with_length).2 = 6%nat.
Proof.
  exact (write_prints_one_bar_per_piece (fun _ => 0) utf8 {| data := []; offset := 0 |}
           (Bytes (String.list_byte_of_string "Hello World")) with_length eq_refl).
Defined.

End Writer.

(** ** [hash_file] (io.py, lines 951-995) *)

Module HashFile.

Import Driver.

(** [f.read(n)]: at most [n] bytes from the offset on, all of them when [n]
    is negative ([f.read()] is [f.read(-1)]); the offset moves behind them. *)
Definition read_size (f : file) (n : Z) : list Byte.byte * file :=
  let pending := drop (offset f) (data f) in
  let bs := if n <? 0 then pending else take (Z.to_nat n) pending in
  (bs, seek f (offset f + length bs)).

Section Hasher.

(** hashlib: [getattr(hashlib, algo)()] makes a new hasher, when the module
    has the algorithm. *)
Variable hasher : Type.
Variable hashlib : string -> option hasher.
Variable update : hasher -> list Byte.byte -> hasher.
Variable hexdigest : hasher -> string.

(** The [while True] loop of the nested [reader].  A round that does not
    break reads at least one byte, so the loop ends within
    [S (length pending)] rounds. *)
Fixpoint update_chunks (fuel : nat) (chunksize : Z) (f : file) (h : hasher) : hasher * file :=
  match fuel with
  | O => (h, f)
  | S k =>
      let '(data, f') := read_size f chunksize in
      match data with
      | [] => (h, f')
      | _ => update_chunks k chunksize f' (update h data)
      end
  end.

(** The nested [reader(f, hasher)]: it yields the digest once. *)
Definition reader (chunksize : Z) : @reader_fn string hasher :=
  fun f args _ =>
    match args with
    | [h] =>
        let '(h', f') :=
          if negb (chunksize =? 0)
          then update_chunks (S (length (drop (offset f) (data f)))) chunksize f h
          else let '(data, f') := read_size f (-1) in (update h data, f') in
        (mk_run [hexdigest h'] None, f')
    | _ => (mk_run [] (Some (mk_exn TypeError "reader() takes exactly 2 arguments")), f)
    end.

(** chardet and the codecs that [read_any] may call. *)
Variable detector : Type.
Variable new_detector : detector.
Variable feed : detector -> list Byte.byte -> detector.
Variable done : detector -> bool.
Variable close : detector -> detector.
Variable detector_result : detector -> detection.
Variable ENCODING : string.
Variable encode_default : list N -> list Byte.byte.
Variable decode_default : list Byte.byte -> result (list N).
Variable unicode : list Byte.byte -> option kwarg -> result (list N).

Definition no_algorithm (algo : string) : exn :=
  mk_exn AttributeError ("'module' object has no attribute '" +:+ algo +:+ "'").

(** [hash_file] with [verbose=False]: the digest returned, and the file as
    it is left ([None] when it was not opened). *)
Definition hash_file (fs : gmap string (list Byte.byte)) (filepath : source) (algo : string)
    (chunksize : Z) : result string * option file :=
  match hashlib algo with
  | None => (Raise (no_algorithm algo), None)
  | Some h =>
      let '(r, f) :=
        read_any detector new_detector feed done close detector_result ENCODING
          encode_default decode_default unicode fs filepath (reader chunksize) "rb" [h] ∅ in
      (Writer.next r, f)
  end.

(** What hashlib documents for [update]: feeding two strings one after the
    other is feeding their concatenation, and feeding nothing changes
    nothing. *)
Hypothesis update_app : forall h a b, update (update h a) b = update h (a ++ b).
Hypothesis update_nil : forall h, update h [] = h.

Lemma seek_seek (f : file) (a b : nat) : seek (seek f a) b = seek f b.
Proof. reflexivity. Qed.

Lemma update_chunks_spec (chunksize : Z) (fuel : nat) :
  chunksize <> 0 ->
  forall (f : file) (h : hasher),
  (length (drop (offset f) (data f)) < fuel)%nat ->
  update_chunks fuel chunksize f h
  = (update h (drop (offset f) (data f)),
     seek f (offset f + length (drop (offset f) (data f)))).
Proof.
  intros Hsize. induction fuel as [| fuel IH]; intros f h Hfuel; [lia |].
  cbn [update_chunks]. unfold read_size.
  set (pending := drop (offset f) (data f)) in *.
  set (bs := if chunksize <? 0 then pending else take (Z.to_nat chunksize) pending).
  assert (bs = take (length bs) pending) as Hprefix.
  { subst bs. destruct (chunksize <? 0).
    - by rewrite firstn_all.
    - rewrite length_take. destruct (decide (Z.to_nat chunksize <= length pending)%nat).
      + by rewrite Nat.min_l.
      + rewrite Nat.min_r by lia. rewrite !take_ge by lia. reflexivity. }
  assert (bs = [] -> pending = []) as Hempty.
  { subst bs. destruct (Z.ltb_spec chunksize 0) as [Hneg | Hpos]; [auto |].
    destruct pending as [| x pending']; [auto |].
    destruct (Z.to_nat chunksize) as [| k] eqn:Hk; [lia | discriminate]. }
  destruct bs as [| b bs'] eqn:Hbs.
  - rewrite (Hempty eq_refl). by rewrite update_nil.
  - rewrite <- Hbs in *. clear Hempty.
    assert (drop (offset (seek f (offset f + length bs))) (data (seek f (offset f + length bs)))
            = drop (length bs) pending) as Hrest.
    { subst pending. cbn [seek offset data]. rewrite drop_drop. reflexivity. }
    rewrite IH; rewrite Hrest.
    + rewrite update_app, seek_seek. f_equal.
      * f_equal. rewrite Hprefix at 1. apply take_drop.
      * cbn [seek offset]. f_equal. rewrite length_drop.
        assert (length bs <= length pending)%nat
          by (rewrite Hprefix, length_take; lia).
        lia.
    + rewrite length_drop.
      assert (0 < length bs)%nat by (rewrite Hbs; cbn [length]; lia).
      assert (length bs <= length pending)%nat by (rewrite Hprefix, length_take; lia).
      lia.
Qed.

(** The run of the reader, whatever the chunk size. *)
Lemma reader_spec (chunksize : Z) (f : file) (h : hasher) (kwargs : gmap string kwarg) :
  reader chunksize f [h] kwargs
  = (mk_run [hexdigest (update h (drop (offset f) (data f)))] None,
     seek f (offset f + length (drop (offset f) (data f)))).
Proof.
  unfold reader. destruct (Z.eqb_spec chunksize 0) as [-> | Hne]; cbn [negb].
  - reflexivity.
  - rewrite update_chunks_spec by (auto; lia). reflexivity.
Qed.

Lemma hash_file_spec (fs : gmap string (list Byte.byte)) (filepath : source) (algo : string)
    (chunksize : Z) (h : hasher) (f : file) (convert : bool) :
  hashlib algo = Some h ->
  opened fs filepath "rb" = Ok (f, convert) ->
  hash_file fs filepath algo chunksize
  = (Ok (hexdigest (update h (drop (offset f) (data f)))),
     Some (seek f (offset f + length (drop (offset f) (data f))))).
Proof.
  intros Halgo Hopen. unfold hash_file, read_any, _read_any. rewrite Halgo, Hopen.
  rewrite reader_spec. reflexivity.
Qed.

(** The digest does not depend on the chunk size: whatever it is (0 for one
    read, a size above 0, or a negative one), [hash_file] returns the digest
    of the bytes from the offset of the file to its end, fed to a new
    hasher, and leaves the file at its end. *)
Theorem hash_file_digest_is_independent_of_chunksize (fs : gmap string (list Byte.byte))
    (filepath : source) (algo : string) (chunksize : Z) (h : hasher) (f : file)
    (convert : bool) :
  hashlib algo = Some h ->
  opened fs filepath "rb" = Ok (f, convert) ->
  hash_file fs filepath algo chunksize = hash_file fs filepath algo 0 /\
  (hash_file fs filepath algo chunksize).1
  = Ok (hexdigest (update h (drop (offset f) (data f)))) /\
  (hash_file fs filepath algo chunksize).2
  = Some (seek f (offset f + length (drop (offset f) (data f)))).
Proof.
  intros Halgo Hopen.
  rewrite !(hash_file_spec fs filepath algo _ h f convert Halgo Hopen). auto.
Qed.

(** Hashing an open file consumes it: the file object is left at its end
    and not seeked back, so hashing the same object again gives the digest
    of the empty input, not the digest of the file. *)
Theorem hash_file_again_hashes_nothing (fs : gmap string (list Byte.byte)) (algo : string)
    (chunksize chunksize' : Z) (h : hasher) (f : file) :
  hashlib algo = Some h ->
  exists f', (hash_file fs (FileObj f) algo chunksize).2 = Some f' /\
             (hash_file fs (FileObj f') algo chunksize').1 = Ok (hexdigest h).
Proof.
  intros Halgo.
  rewrite (hash_file_spec fs (FileObj f) algo chunksize h f false Halgo eq_refl).
  eexists. split; [reflexivity |].
  rewrite (hash_file_spec fs (FileObj _) algo chunksize' h _ false Halgo eq_refl).
  cbn [fst seek offset data].
  rewrite (drop_ge (data f)) by (rewrite length_drop; lia).
  by rewrite update_nil.
Qed.

End Hasher.

(** *** An example: a hasher that remembers what it was fed *)

Definition recording (algo : string) : option (list Byte.byte) :=
  if bool_decide (algo = "sha1") then Some [] else None.

Definition sample_hash_file :=
  hash_file (list Byte.byte) recording app String.string_of_list_byte
    unit tt (fun d _ => d) (fun _ => false) id
    (fun _ => {| confidence := 0; encoding := None |}) "utf-8" utf8
    (fun _ => Ok []) (fun _ _ => Ok []).

Definition hello : file := {| data := String.list_byte_of_string "Hello World"; offset := 6 |}.

Lemma hash_file_digest_is_independent_of_chunksize_witness :
  (sample_hash_file ∅ (FileObj hello) "sha1" 2).1 = Ok "World" /\
  (sample_hash_file ∅ (FileObj hello) "sha1" 2).2 = Some (seek hello 11).
Proof.
  destruct (hash_file_digest_is_independent_of_chunksize (list Byte.byte) recording app
              String.string_of_list_byte unit tt (fun d _ => d) (fun _ => false) id
              (fun _ => {| confidence := 0; encoding := None |}) "utf-8" utf8
              (fun _ => Ok []) (fun _ _ => Ok [])
              (fun h a b => eq_sym (app_assoc h a b)) (fun h => app_nil_r h)
              ∅ (FileObj hello) "sha1" 2 [] hello false eq_refl eq_refl) as (_ & H1 & H2).
  split; [exact H1 | exact H2].
Defined.

Lemma hash_file_again_hashes_nothing_witness :
  exists f', (sample_hash_file ∅ (FileObj hello) "sha1" 0).2 = Some f' /\
             (sample_hash_file ∅ (FileObj f') "sha1" 0).1 = Ok "".
Proof.
  exact (hash_file_again_hashes_nothing (list Byte.byte) recording app
           String.string_of_list_byte unit tt (fun d _ => d) (fun _ => false) id
           (fun _ => {| confidence := 0; encoding := None |}) "utf-8" utf8
           (fun _ => Ok []) (fun _ _ => Ok [])
           (fun h a b => eq_sym (app_assoc h a b)) (fun h => app_nil_r h)
           ∅ "sha1" 0 0 [] hello eq_refl).
Defined.

End HashFile.

(** ** [read_geojson] (io.py, lines 848-883) *)

Module Geojson.

Import Driver.

#[local] Unset Elimination Schemes.
Inductive json : Type :=
| JNull
| JBool (b : bool)
| JNum (q : Q)
| JStr (s : string)
| JArr (elements : list json)
| JObj (fields : list (string * json)).
#[local] Set Elimination Schemes.

(** A record: a Python dict with text keys. *)
Abbreviation record := (gmap string json).

(** The dict of a JSON object: the last of two equal keys wins. *)
Definition dict_of (fields : list (string * json)) : record := list_to_map (reverse fields).

(** The truth value used by [or]. *)
Definition truthy (v : json) : bool :=
  match v with
  | JNull => false
  | JBool b => b
  | JNum q => negb (Qeq_bool q 0)
  | JStr s => negb (bool_decide (s = ""))
  | JArr l => negb (bool_decide (length l = 0%nat))
  | JObj l => negb (bool_decide (length l = 0%nat))
  end.

(** Modelled from the spec: [process.merge] (section 4.3), which combines a
    sequence of mappings, a later mapping overriding an earlier one. *)
Definition merge (mappings : list record) : record :=
  foldl (fun acc m => m ∪ acc) ∅ mappings.

(** An argument of [merge] must be a mapping. *)
Definition as_mapping (v : json) : result record :=
  match v with
  | JObj fields => Ok (dict_of fields)
  | _ => Raise (mk_exn TypeError "cannot convert dictionary update sequence element")
  end.

(** [feature.get(key)] and [feature[key]] *)
Definition get (feature : json) (key : string) : result json :=
  match feature with
  | JObj fields => Ok (default JNull (dict_of fields !! key))
  | _ => Raise (mk_exn AttributeError "object has no attribute 'get'")
  end.

Definition getitem (feature : json) (key : string) : result json :=
  match feature with
  | JObj fields =>
      match dict_of fields !! key with
      | Some v => Ok v
      | None => Raise (mk_exn KeyError key)
      end
  | _ => Raise (mk_exn TypeError "indices must be integers")
  end.

(** The body of the loop over the features.  [feature['geometry']] is
    evaluated while the argument of [merge] is built, before [merge] looks
    at any of the three mappings; [merge] then takes them in order. *)
Definition flatten (feature : json) : result record :=
  match get feature "id" with
  | Raise e => Raise e
  | Ok id =>
      let _id : record := {["id" := id]} in
      match get feature "properties" with
      | Raise e => Raise e
      | Ok props =>
          let rec := if truthy props then props else JObj [] in
          match getitem feature "geometry" with
          | Raise e => Raise e
          | Ok geometry =>
              match as_mapping rec with
              | Raise e => Raise e
              | Ok r =>
                  match as_mapping geometry with
                  | Raise e => Raise e
                  | Ok g => Ok (merge [_id; r; g])
                  end
              end
          end
      end
  end.

(** The loop, up to the first exception: of a feature, or of the iterator
    of features itself ([stop]). *)
Fixpoint flatten_all (features : list json) (stop : option exn) : run record :=
  match features with
  | [] => mk_run [] stop
  | feature :: features' =>
      match flatten feature with
      | Raise e => mk_run [] (Some e)
      | Ok rec =>
          let r := flatten_all features' stop in mk_run (rec :: yielded r) (ending r)
      end
  end.

Definition no_features : exn := mk_exn TypeError "Only GeoJSON with features are supported.".

Section Reader.

(** ijson's [items(f, prefix)]: the call raises, or returns an iterator,
    whose run is given with the file as the iteration leaves it. *)
Variable items : file -> string -> result (run json * file).

(** The nested [reader]: only a [KeyError] of the call [items(...)] itself
    is turned into the [TypeError]. *)
Definition reader : @reader_fn record unit :=
  fun f _ _ =>
    match items f "features.item" with
    | Raise e => (mk_run [] (Some (if isinstance e KeyError then no_features else e)), f)
    | Ok (features, f') => (flatten_all (yielded features) (ending features), f')
    end.

(** chardet and the codecs that [read_any] may call. *)
Variable detector : Type.
Variable new_detector : detector.
Variable feed : detector -> list Byte.byte -> detector.
Variable done : detector -> bool.
Variable close : detector -> detector.
Variable detector_result : detector -> detection.
Variable ENCODING : string.
Variable encode_default : list N -> list Byte.byte.
Variable decode_default : list Byte.byte -> result (list N).
Variable unicode : list Byte.byte -> option kwarg -> result (list N).

Definition read_geojson (fs : gmap string (list Byte.byte)) (filepath : source) (mode : string)
    : run record * option file :=
  read_any detector new_detector feed done close detector_result ENCODING encode_default
    decode_default unicode fs filepath reader mode [] ∅.

(** When the call [items(...)] raises a [KeyError], [read_geojson] yields
    nothing and fails with the [TypeError] of the source. *)
Lemma read_geojson_key_error (fs : gmap string (list Byte.byte)) (f : file) (e : exn) :
  items f "features.item" = Raise e ->
  isinstance e KeyError = true ->
  read_geojson fs (FileObj f) "rU" = (mk_run [] (Some no_features), Some f).
Proof.
  intros Hitems Hkey. unfold read_geojson, read_any, _read_any, reader. simpl.
  rewrite Hitems, Hkey. reflexivity.
Qed.

(** When the call returns an iterator that yields nothing, [read_geojson]
    ends normally with no record. *)
Lemma read_geojson_no_item (fs : gmap string (list Byte.byte)) (f f' : file) :
  items f "features.item" = Ok (mk_run [] None, f') ->
  read_geojson fs (FileObj f) "rU" = (mk_run [] None, Some f').
Proof.
  intros Hitems. unfold read_geojson, read_any, _read_any, reader. simpl.
  rewrite Hitems. reflexivity.
Qed.

(** *** A feature without geometry *)

(** Whatever its other members hold, a feature object without [geometry]
    fails with the [KeyError] of [feature['geometry']]. *)
Lemma flatten_without_geometry (fields : list (string * json)) :
  dict_of fields !! "geometry" = None ->
  flatten (JObj fields) = Raise (mk_exn KeyError "geometry").
Proof. intros Hgeo. unfold flatten, get, getitem. rewrite Hgeo. reflexivity. Qed.

Lemma flatten_all_stops (before after : list json) (recs : list record) (feature : json)
    (stop : option exn) (e : exn) :
  Forall2 (fun feature rec => flatten feature = Ok rec) before recs ->
  flatten feature = Raise e ->
  flatten_all (before ++ feature :: after) stop = mk_run recs (Some e).
Proof.
  intros Hbefore Hfeature.
  induction Hbefore as [| x rec before recs Hx _ IH]; cbn [app flatten_all].
  - by rewrite Hfeature.
  - by rewrite Hx, IH.
Qed.

(** A feature that has no [geometry] member ends the reading with the
    [KeyError] of [feature['geometry']], after the records of the features
    before it: the [except KeyError] of the reader guards the call of
    [items] only, so this failure is not turned into its [TypeError], and
    nothing of the features behind it is read. *)
Theorem read_geojson_feature_without_geometry (fs : gmap string (list Byte.byte))
    (filepath : source) (mode : string) (f f' : file) (convert : bool)
    (before after : list json) (fields : list (string * json)) (stop : option exn)
    (recs : list record) :
  opened fs filepath mode = Ok (f, convert) ->
  items f "features.item" = Ok (mk_run (before ++ JObj fields :: after) stop, f') ->
  Forall2 (fun feature rec => flatten feature = Ok rec) before recs ->
  dict_of fields !! "geometry" = None ->
  read_geojson fs filepath mode = (mk_run recs (Some (mk_exn KeyError "geometry")), Some f') /\
  mk_exn KeyError "geometry" <> no_features.
Proof.
  intros Hopen Hitems Hbefore Hgeo. split; [| discriminate].
  unfold read_geojson, read_any, _read_any, reader. rewrite Hopen, Hitems.
  cbn [yielded ending].
  rewrite (flatten_all_stops before after recs (JObj fields) stop _ Hbefore
             (flatten_without_geometry fields Hgeo)).
  cbn [ending]. reflexivity.
Qed.

End Reader.

(** *** ijson's [items] *)

(** The values found at a path of keys, where [item] stands for the
    elements of an array. *)
Fixpoint items_at (path : list string) (doc : json) : list json :=
  match path with
  | [] => [doc]
  | k :: path' =>
      match doc with
      | JArr elements =>
          if bool_decide (k = "item") then flat_map (items_at path') elements else []
      | JObj fields =>
          flat_map (fun '(k', v) => if bool_decide (k' = k) then items_at path' v else []) fields
      | _ => []
      end
  end.

(** The keys of a dotted prefix. *)
Fixpoint split_dots (cur : list Ascii.ascii) (s : string) : list string :=
  match s with
  | EmptyString => [String.string_of_list_ascii (rev cur)]
  | String c s' =>
      if bool_decide (c = Ascii.ascii_of_nat 46)
      then String.string_of_list_ascii (rev cur) :: split_dots [] s'
      else split_dots (c :: cur) s'
  end.

(** Modelled from the spec: the streaming JSON engine of section 6 (ijson),
    which extracts the elements at a path while the document is read.
    [items] is a generator: the call runs none of the parser and cannot
    raise; the input is parsed while the result is iterated, and a path that
    matches nothing yields nothing. *)
Definition ijson_items (parse : list Byte.byte -> result json)
    (f : file) (prefix : string) : result (run json * file) :=
  let '(bs, f') := read f in
  Ok (match parse bs with
      | Ok doc => mk_run (items_at (split_dots [] prefix) doc) None
      | Raise e => mk_run [] (Some e)
      end, f').

(** The document [{}], which has no [features]. *)
Definition empty_document : file := {| data := String.list_byte_of_string "{}"; offset := 0 |}.

Definition parse_empty_document (bs : list Byte.byte) : result json :=
  if bool_decide (bs = String.list_byte_of_string "{}") then Ok (JObj [])
  else Raise (mk_exn ValueError "parse error").

(** C5, at the failing input.  On the document [{}] the reader meets no
    [KeyError]: [read_geojson] ends normally with no record instead of
    failing with [no_features]. *)
Theorem read_geojson_without_features_yields_nothing :
  (read_geojson (ijson_items parse_empty_document)
     unit tt (fun d _ => d) (fun _ => false) id
     (fun _ => {| confidence := 0; encoding := None |}) "utf-8" utf8
     (fun _ => Ok []) (fun _ _ => Ok [])
     ∅ (FileObj empty_document) "rU").1
  = mk_run [] None.
Proof. reflexivity. Qed.

(** A document with one feature, for comparison: its id, properties and
    geometry are merged into one record. *)
Definition one_feature : json :=
  JObj [("type", JStr "FeatureCollection");
        ("features",
         JArr [JObj [("type", JStr "Feature");
                     ("properties", JObj [("prop0", JStr "value0")]);
                     ("geometry", JObj [("type", JStr "Point");
                                        ("coordinates", JArr [JNum 102; JNum (1 # 2)])])]])].

Lemma flatten_one_feature :
  flatten_all (items_at (split_dots [] "features.item") one_feature) None
  = mk_run [ {["id" := JNull; "prop0" := JStr "value0"; "type" := JStr "Point";
               "coordinates" := JArr [JNum 102; JNum (1 # 2)] ]} ] None.
Proof. vm_compute. reflexivity. Qed.

(** Two features, the second without geometry. *)
Definition point_feature : json :=
  JObj [("id", JNum 1); ("geometry", JObj [("type", JStr "Point")])].

Definition bare_feature : list (string * json) :=
  [("id", JNum 2); ("properties", JArr [JStr "not a mapping"])].

Definition two_features : json :=
  JObj [("features", JArr [point_feature; JObj bare_feature])].

Definition point_record : record := {["id" := JNum 1; "type" := JStr "Point"]}.

Lemma read_geojson_feature_without_geometry_witness :
  (read_geojson (ijson_items (fun _ => Ok two_features))
     unit tt (fun d _ => d) (fun _ => false) id
     (fun _ => {| confidence := 0; encoding := None |}) "utf-8" utf8
     (fun _ => Ok []) (fun _ _ => Ok [])
     ∅ (FileObj empty_document) "rU").1
  = mk_run [point_record] (Some (mk_exn KeyError "geometry")).
Proof.
  destruct (read_geojson_feature_without_geometry (ijson_items (fun _ => Ok two_features))
              unit tt (fun d _ => d) (fun _ => false) id
              (fun _ => {| confidence := 0; encoding := None |}) "utf-8" utf8
              (fun _ => Ok []) (fun _ _ => Ok [])
              ∅ (FileObj empty_document) "rU" empty_document (seek empty_document 2) false
              [point_feature] [] bare_feature None [point_record]
              eq_refl eq_refl
              ltac:(repeat constructor; vm_compute; reflexivity)
              ltac:(vm_compute; reflexivity)) as [H _].
  by rewrite H.
Defined.

End Geojson.

(** ** [tabutils/typetools.py] *)

Module Typetools.

Definition NULL_YEAR : Z := 9999.
Definition NULL_TIME : string := "00:00:00".

(** [datetime.date] and [datetime.time] (without a time zone). *)
Record date : Type := mk_date { year : Z; month : Z; day : Z }.
Record time : Type := mk_time { hour : Z; minute : Z; second : Z; microsecond : Z }.

#[global] Instance date_eq_dec : EqDecision date.
Proof. solve_decision. Defined.
#[global] Instance time_eq_dec : EqDecision time.
Proof. solve_decision. Defined.

Definition midnight : time := mk_time 0 0 0 0.

(** The constructors of [datetime.time] keep every field in its range. *)
Definition valid_time (t : time) : Prop :=
  0 <= hour t < 24 /\ 0 <= minute t < 60 /\ 0 <= second t < 60 /\
  0 <= microsecond t < 1000000.

(** The Python values the predicates are applied to.  [VObject] is any
    other object (a list, a dict, ...): what [str(type(value))] prints for it
    and its truth value; it has none of the attributes [date], [time],
    [timetuple], [year], [isoformat], [lower]. *)
Inductive value : Type :=
| VNone
| VBool (b : bool)
| VInt (n : Z)
| VFloat (q : Q)
| VText (s : string)
| VDate (d : date)
| VTime (t : time)
| VDatetime (d : date) (t : time)
| VObject (type_repr : string) (truth : bool).

(** The truth value of a value.  In Python 2 a [time] is false at midnight. *)
Definition truthy (v : value) : bool :=
  match v with
  | VNone => false
  | VBool b => b
  | VInt n => negb (n =? 0)
  | VFloat q => negb (Qeq_bool q 0)
  | VText s => negb (bool_decide (s = ""))
  | VDate _ => true
  | VTime t => negb (bool_decide (t = midnight))
  | VDatetime _ _ => true
  | VObject _ truth => truth
  end.

(** [a and b] *)
Definition py_and (a b : value) : value := if truthy a then b else a.

(** [str(type(value))] *)
Definition type_repr (v : value) : string :=
  match v with
  | VNone => "<type 'NoneType'>"
  | VBool _ => "<type 'bool'>"
  | VInt _ => "<type 'int'>"
  | VFloat _ => "<type 'float'>"
  | VText _ => "<type 'unicode'>"
  | VDate _ => "<type 'datetime.date'>"
  | VTime _ => "<type 'datetime.time'>"
  | VDatetime _ _ => "<type 'datetime.datetime'>"
  | VObject r _ => r
  end.

(** *** Strings *)

(** [needle in hay] *)
Fixpoint contains (needle hay : string) : bool :=
  String.prefix needle hay ||
  match hay with
  | EmptyString => false
  | String _ hay' => contains needle hay'
  end.

(** [s.replace(old, new)] for a non-empty [old]: the occurrences are
    replaced from the left; [skip] counts the characters of an occurrence
    still to be passed over. *)
Fixpoint replace_from (old new : string) (skip : nat) (s : string) : string :=
  match s with
  | EmptyString => EmptyString
  | String c s' =>
      match skip with
      | S k => replace_from old new k s'
      | O =>
          if String.prefix old s
          then new +:+ replace_from old new (String.length old - 1) s'
          else String c (replace_from old new 0 s')
      end
  end.

Definition replace (old new s : string) : string :=
  match old with
  | EmptyString => s
  | _ => replace_from old new 0 s
  end.

(** Modelled from the spec: [fntools.mreplace] (section 4.1), which applies
    the substitutions one after the other, left to right. *)
Definition mreplace (text : string) (replacements : list (string * string)) : string :=
  foldl (fun t '(old, new) => replace old new t) text replacements.

(** [s.strip(chars)] *)
Definition lstrip (chars : list Ascii.ascii) (s : list Ascii.ascii) : list Ascii.ascii :=
  (span (fun c => bool_decide (c ∈ chars)) s).2.

Definition strip (chars : string) (s : string) : string :=
  let cs := String.list_ascii_of_string chars in
  String.string_of_list_ascii
    (rev (lstrip cs (rev (lstrip cs (String.list_ascii_of_string s))))).

(** Decimal digits: [digits w n] is [n] written with [w] digits, for
    [0 <= n < 10 ^ w]. *)
Definition digit (n : Z) : Ascii.ascii := Ascii.ascii_of_nat (48 + Z.to_nat (n mod 10)).

Fixpoint digits (w : nat) (n : Z) : string :=
  match w with
  | O => EmptyString
  | S w' => digits w' (n / 10) +:+ String (digit n) EmptyString
  end.

(** [time.isoformat()]: the microseconds are printed when they are not 0. *)
Definition time_isoformat (t : time) : string :=
  digits 2 (hour t) +:+ ":" +:+ digits 2 (minute t) +:+ ":" +:+ digits 2 (second t)
  +:+ (if microsecond t =? 0 then "" else "." +:+ digits 6 (microsecond t)).

Definition date_isoformat (d : date) : string :=
  digits 4 (year d) +:+ "-" +:+ digits 2 (month d) +:+ "-" +:+ digits 2 (day d).

(** *** Attribute access *)

Definition attribute_error (v : value) (name : string) : exn :=
  mk_exn AttributeError (type_repr v +:+ " has no attribute '" +:+ name +:+ "'").

(** [converted.date()] and [converted.time()]: methods of a datetime only. *)
Definition date_method (v : value) : result date :=
  match v with
  | VDatetime d _ => Ok d
  | _ => Raise (attribute_error v "date")
  end.

Definition time_method (v : value) : result time :=
  match v with
  | VDatetime _ t => Ok t
  | _ => Raise (attribute_error v "time")
  end.

(** [hasattr(converted, 'timetuple')]: a date or a datetime. *)
Definition has_timetuple (v : value) : bool :=
  match v with
  | VDate _ | VDatetime _ _ => true
  | _ => false
  end.

(** [converted.year] *)
Definition year_attr (v : value) : result Z :=
  match v with
  | VDate d | VDatetime d _ => Ok (year d)
  | _ => Raise (attribute_error v "year")
  end.

(** [converted.isoformat()] *)
Definition isoformat (v : value) : result string :=
  match v with
  | VTime t => Ok (time_isoformat t)
  | VDate d => Ok (date_isoformat d)
  | VDatetime d t => Ok (date_isoformat d +:+ "T" +:+ time_isoformat t)
  | _ => Raise (attribute_error v "isoformat")
  end.

(** [hasattr(x, 'lower')] *)
Definition has_lower (v : value) : bool :=
  match v with
  | VText _ => true
  | _ => false
  end.

(** *** [type_test] and the two guessers *)

(** A type-guess result: [{'id': key, 'type': type}]. *)
Record guess : Type := mk_guess { id : string; type_ : string }.

#[global] Instance guess_eq_dec : EqDecision guess.
Proof. solve_decision. Defined.

(** A rule of a guesser: [{'type': ..., 'func': ...}]. *)
Record rule : Type := mk_rule { rule_type : string; func : value -> result value }.

Definition real_type (v : value) : string :=
  strip " '<>" (mreplace (type_repr v) [("type", ""); ("datetime.", "")]).

(** [type_test]: an [AttributeError] of the test gives the runtime type; any
    other exception escapes. *)
Definition type_test (test : value -> result value) (_type : string) (key : string)
    (v : value) : result (option guess) :=
  match test v with
  | Raise e =>
      if isinstance e AttributeError then Ok (Some (mk_guess key (real_type v)))
      else Raise e
  | Ok passed => Ok (if truthy passed then Some (mk_guess key _type) else None)
  end.

(** The inner [for g in guess_funcs] loop: the first result that is not
    [None]; [otherwise] is what happens when the loop ends without [break]. *)
Fixpoint first_result (guess_funcs : list rule) (key : string) (v : value)
    (otherwise : result (option guess)) : result (option guess) :=
  match guess_funcs with
  | [] => otherwise
  | g :: gs =>
      match type_test (func g) (rule_type g) key v with
      | Raise e => Raise e
      | Ok (Some r) => Ok (Some r)
      | Ok None => first_result gs key v otherwise
      end
  end.

(** A generator that handles its items one after the other and yields the
    results that are not [None], up to the first exception. *)
Fixpoint generate {X : Type} (steps : list (result (option X))) : run X :=
  match steps with
  | [] => mk_run [] None
  | Raise e :: _ => mk_run [] (Some e)
  | Ok None :: steps' => generate steps'
  | Ok (Some x) :: steps' =>
      let r := generate steps' in mk_run (x :: yielded r) (ending r)
  end.

(** [needle in x] as a test: [x] must be a text. *)
Definition in_test (needle : string) (x : value) : result value :=
  match x with
  | VText s => Ok (VBool (contains needle s))
  | _ => Raise (mk_exn TypeError ("argument of type " +:+ type_repr x +:+ " is not iterable"))
  end.

(** Modelled from the spec: [fntools.find] with [method='fuzzy'] (section
    4.1), which tests whether any candidate matches any target by substring
    containment.  The docstring of [guess_type_by_field] ([raw_value] is a
    float) fixes the direction: the target is contained in the candidate. *)
Definition find_fuzzy (targets candidates : list string) : bool :=
  existsb (fun t => existsb (fun c => contains t c) candidates) targets.

Definition floats : list string := ["value"; "length"; "width"; "days"].

Definition float_func_field (x : value) : result value :=
  match x with
  | VText s => Ok (VBool (find_fuzzy floats [s]))
  | _ => Raise (mk_exn TypeError ("argument of type " +:+ type_repr x +:+ " is not iterable"))
  end.

Definition datetime_func (x : value) : result value :=
  match in_test "date" x with
  | Raise e => Raise e
  | Ok a => if truthy a then in_test "time" x else Ok a
  end.

Definition field_guess_funcs : list rule :=
  [mk_rule "datetime" datetime_func;
   mk_rule "date" (in_test "date");
   mk_rule "time" (in_test "time");
   mk_rule "float" float_func_field;
   mk_rule "int" (in_test "count");
   mk_rule "text" (fun _ => Ok (VBool true))].

(** [guess_type_by_field]: the inner loop has no [else]; a name for which no
    rule gives a result yields nothing. *)
Definition guess_type_by_field (content : list string) : run guess :=
  generate (map (fun item => first_result field_guess_funcs item (VText item) (Ok None)) content).

(** *** Guessing by field name *)

(** The rule chain as the specification words it (section 4.5.1). *)
Definition spec_field_type (name : string) : string :=
  if contains "date" name && contains "time" name then "datetime"
  else if contains "date" name then "date"
  else if contains "time" name then "time"
  else if existsb (fun target => contains target name) floats then "float"
  else if contains "count" name then "int"
  else "text".

Lemma find_fuzzy_single (targets : list string) (name : string) :
  find_fuzzy targets [name] = existsb (fun target => contains target name) targets.
Proof.
  unfold find_fuzzy. induction targets as [| t ts IH]; simpl in *; [reflexivity |].
  rewrite IH, orb_false_r. reflexivity.
Qed.

Lemma first_result_field (name : string) :
  first_result field_guess_funcs name (VText name) (Ok None)
  = Ok (Some (mk_guess name (spec_field_type name))).
Proof.
  unfold spec_field_type, field_guess_funcs, first_result, type_test, func, rule_type,
    datetime_func, float_func_field, in_test.
  rewrite find_fuzzy_single.
  generalize (existsb (fun target => contains target name) floats).
  generalize (contains "date" name), (contains "time" name), (contains "count" name).
  intros [] [] [] []; reflexivity.
Qed.

(** C6.  [guess_type_by_field] yields one pair per name, in the order of the
    names, and the type of a name is the one the first-match chain datetime,
    date, time, float, int, text gives it; the docstring's five names get
    date, float, datetime, float, text. *)
Theorem guess_type_by_field_first_match (content : list string) :
  guess_type_by_field content
  = mk_run (map (fun name => mk_guess name (spec_field_type name)) content) None /\
  map type_ (yielded (guess_type_by_field
                        ["date"; "raw_value"; "date_and_time"; "length"; "field"]))
  = ["date"; "float"; "datetime"; "float"; "text"].
Proof.
  split; [| reflexivity].
  unfold guess_type_by_field.
  induction content as [| name content IH]; [reflexivity |].
  cbn [map]. rewrite first_result_field. cbn [generate]. rewrite IH. reflexivity.
Qed.

(** *** The ISO form of a time and the sentinel *)

Lemma digit_zero (n : Z) : digit n = Ascii.ascii_of_nat 48 -> n mod 10 = 0.
Proof.
  unfold digit. intros H.
  apply (f_equal Ascii.nat_of_ascii) in H.
  pose proof (Z.mod_pos_bound n 10 ltac:(lia)) as Hb.
  rewrite !Ascii.nat_ascii_embedding in H by lia. lia.
Qed.

Lemma digits2_zero (n : Z) : 0 <= n < 100 -> digits 2 n = "00" -> n = 0.
Proof.
  intros Hn H. cbv [digits String.append] in H.
  injection H as H1 H2.
  apply (digit_zero (n / 10)) in H1. apply (digit_zero n) in H2.
  Z.div_mod_to_equations. lia.
Qed.

(** Among the times that [datetime.time] can build, only midnight prints as
    [NULL_TIME]. *)
Lemma time_isoformat_null_iff (t : time) :
  valid_time t -> time_isoformat t = NULL_TIME <-> t = midnight.
Proof.
  intros (Hh & Hm & Hs & Hu). split; [| intros ->; reflexivity].
  destruct t as [h m s u]. cbn [hour minute second microsecond] in *.
  unfold time_isoformat, NULL_TIME. cbn [hour minute second microsecond].
  intros H.
  assert (digits 2 h = "00" /\ digits 2 m = "00" /\ digits 2 s = "00" /\
          (if u =? 0 then "" else "." +:+ digits 6 u) = "") as (H1 & H2 & H3 & H4).
  { cbv [digits String.append] in H |- *. injection H as Ha Hb Hc Hd He Hf Hg.
    rewrite Ha, Hb, Hc, Hd, He, Hf. repeat split.
    destruct (u =? 0); [reflexivity | discriminate]. }
  apply digits2_zero in H1, H2, H3; try lia. subst.
  destruct (Z.eqb_spec u 0) as [-> | Hne]; [reflexivity | discriminate].
Qed.

Section ByValue.

(** The helpers of [fntools] (section 4.1 of the spec: they answer false
    rather than raise), [convert.to_datetime], and [str]. *)
Variable is_null : bool -> value -> bool.
Variable is_bool : value -> bool.
Variable is_int : bool -> value -> bool.
Variable is_numeric : bool -> value -> bool.
Variable to_datetime : value -> result value.
Variable str : value -> string.

(** The [try] that opens the three predicates: a [TypeError] of the
    conversion leaves the content as it is. *)
Definition convert (content : value) : result value :=
  match to_datetime content with
  | Ok converted => Ok converted
  | Raise e => if isinstance e TypeError then Ok content else Raise e
  end.

(** [!=] on years and on ISO times. *)
Definition year_ne (y : Z) : value := VBool (negb (y =? NULL_YEAR)).
Definition time_ne (s : string) : value := VBool (negb (bool_decide (s = NULL_TIME))).

Definition is_date (content : value) : result value :=
  match convert content with
  | Raise e => Raise e
  | Ok converted =>
      let the_year :=
        match date_method converted with
        | Ok d => Ok (year d)
        | Raise _ =>
            if has_timetuple converted then year_attr converted else Ok NULL_YEAR
        end in
      match the_year with
      | Raise e => Raise e
      | Ok y => Ok (py_and converted (year_ne y))
      end
  end.

Definition is_time (content : value) : result value :=
  match convert content with
  | Raise e => Raise e
  | Ok converted =>
      let the_time :=
        match time_method converted with
        | Ok t => Ok (time_isoformat t)
        | Raise _ =>
            if has_timetuple converted then Ok NULL_TIME else isoformat converted
        end in
      match the_time with
      | Raise e => Raise e
      | Ok s => Ok (py_and converted (time_ne s))
      end
  end.

Definition is_datetime (content : value) : result value :=
  match convert content with
  | Raise e => Raise e
  | Ok converted =>
      let the_year :=
        match date_method converted with Ok d => year d | Raise _ => NULL_YEAR end in
      let the_time :=
        match time_method converted with
        | Ok t => time_isoformat t
        | Raise _ => NULL_TIME
        end in
      let has_date := py_and converted (year_ne the_year) in
      let has_time := py_and converted (time_ne the_time) in
      Ok (py_and has_date has_time)
  end.

Section Options.

Variable blanks_as_nulls : bool.
Variable strip_zeros : bool.

Definition value_guess_funcs : list rule :=
  [mk_rule "null" (fun x => Ok (VBool (is_null blanks_as_nulls x)));
   mk_rule "bool" (fun x => Ok (VBool (is_bool x)));
   mk_rule "int" (fun x => Ok (VBool (is_int strip_zeros x)));
   mk_rule "float" (fun x => Ok (VBool (is_numeric strip_zeros x)));
   mk_rule "datetime" is_datetime;
   mk_rule "time" is_time;
   mk_rule "date" is_date;
   mk_rule "text" (fun x => Ok (VBool (has_lower x)))].

Definition couldnt_guess (v : value) : exn :=
  mk_exn TypeError ("Couldn't guess type of '" +:+ str v +:+ "'").

(** The body of the outer loop for one field. *)
Definition guess_field (key : string) (v : value) : result (option guess) :=
  first_result value_guess_funcs key v (Raise (couldnt_guess v)).

(** [guess_type_by_value]; the record is given in the order in which
    [iteritems] delivers its fields. *)
Definition guess_type_by_value (record : list (string * value)) : run guess :=
  generate (map (fun '(key, v) => guess_field key v) record).

End Options.

(** *** The three predicates, by the converted value *)

Lemma predicates_on_datetime (content : value) (d : date) (t : time) :
  convert content = Ok (VDatetime d t) ->
  is_date content = Ok (year_ne (year d)) /\
  is_time content = Ok (time_ne (time_isoformat t)) /\
  is_datetime content = Ok (py_and (year_ne (year d)) (time_ne (time_isoformat t))).
Proof. intros H. unfold is_date, is_time, is_datetime. rewrite H. auto. Qed.

Lemma predicates_on_date (content : value) (d : date) :
  convert content = Ok (VDate d) ->
  is_date content = Ok (year_ne (year d)) /\
  is_time content = Ok (VBool false) /\
  is_datetime content = Ok (VBool false).
Proof. intros H. unfold is_date, is_time, is_datetime. rewrite H. auto. Qed.

Lemma predicates_on_time (content : value) (t : time) :
  convert content = Ok (VTime t) ->
  is_date content = Ok (py_and (VTime t) (VBool false)) /\
  is_time content = Ok (py_and (VTime t) (time_ne (time_isoformat t))) /\
  is_datetime content = Ok (py_and (VTime t) (VBool false)).
Proof.
  intros H. unfold is_date, is_time, is_datetime. rewrite H.
  unfold py_and. simpl.
  destruct (bool_decide (t = midnight)) eqn:E; simpl; rewrite ?E; simpl; auto.
Qed.

Lemma year_ne_true (y : Z) : y <> NULL_YEAR -> year_ne y = VBool true.
Proof. intros H. unfold year_ne. destruct (Z.eqb_spec y NULL_YEAR); [contradiction | reflexivity]. Qed.

Lemma time_ne_true (s : string) : s <> NULL_TIME -> time_ne s = VBool true.
Proof. intros H. unfold time_ne. rewrite bool_decide_eq_false_2 by exact H. reflexivity. Qed.

Lemma time_off_sentinel_truthy (t : time) :
  time_isoformat t <> NULL_TIME -> truthy (VTime t) = true.
Proof.
  intros H. simpl. rewrite bool_decide_eq_false_2; [reflexivity |].
  intros ->. apply H. reflexivity.
Qed.

(** C7, amended.  Off the sentinels the three predicates agree, on every
    content (a text, a date, a time or a datetime object), by what its
    converted form represents.  A date only (a date object, or a datetime
    whose time prints as 00:00:00) whose year is not 9999 is a date and not
    a time; a time of day only (a time object, or a datetime whose year is
    9999) whose ISO form is not 00:00:00 is a time and not a date; a
    datetime with such a year and such a time is a date, a time and a
    datetime. *)
Theorem date_time_predicates_agree_off_sentinels (content converted : value) :
  convert content = Ok converted ->
  (forall d, converted = VDate d -> year d <> NULL_YEAR ->
     is_date content = Ok (VBool true) /\ is_time content = Ok (VBool false) /\
     is_datetime content = Ok (VBool false)) /\
  (forall d t, converted = VDatetime d t -> year d <> NULL_YEAR ->
     time_isoformat t = NULL_TIME ->
     is_date content = Ok (VBool true) /\ is_time content = Ok (VBool false) /\
     is_datetime content = Ok (VBool false)) /\
  (forall t, converted = VTime t -> time_isoformat t <> NULL_TIME ->
     is_date content = Ok (VBool false) /\ is_time content = Ok (VBool true) /\
     is_datetime content = Ok (VBool false)) /\
  (forall d t, converted = VDatetime d t -> year d = NULL_YEAR ->
     time_isoformat t <> NULL_TIME ->
     is_date content = Ok (VBool false) /\ is_time content = Ok (VBool true) /\
     is_datetime content = Ok (VBool false)) /\
  (forall d t, converted = VDatetime d t -> year d <> NULL_YEAR ->
     time_isoformat t <> NULL_TIME ->
     is_date content = Ok (VBool true) /\ is_time content = Ok (VBool true) /\
     is_datetime content = Ok (VBool true)).
Proof.
  intros Hconv. repeat apply conj.
  - intros d -> Hy. destruct (predicates_on_date _ _ Hconv) as (-> & -> & ->).
    by rewrite year_ne_true.
  - intros d t -> Hy Ht. destruct (predicates_on_datetime _ _ _ Hconv) as (-> & -> & ->).
    rewrite year_ne_true by exact Hy. unfold time_ne. rewrite Ht.
    rewrite bool_decide_eq_true_2 by reflexivity. auto.
  - intros t -> Ht. destruct (predicates_on_time _ _ Hconv) as (-> & -> & ->).
    unfold py_and. by rewrite time_off_sentinel_truthy, time_ne_true.
  - intros d t -> Hy Ht. destruct (predicates_on_datetime _ _ _ Hconv) as (-> & -> & ->).
    rewrite time_ne_true by exact Ht. unfold year_ne. rewrite Hy.
    rewrite Z.eqb_refl. auto.
  - intros d t -> Hy Ht. destruct (predicates_on_datetime _ _ _ Hconv) as (-> & -> & ->).
    by rewrite year_ne_true, time_ne_true.
Qed.

Lemma predicates_on_raise (content : value) (e : exn) :
  convert content = Raise e ->
  is_date content = Raise e /\ is_time content = Raise e /\ is_datetime content = Raise e.
Proof. intros H. unfold is_date, is_time, is_datetime. rewrite H. auto. Qed.

(** A value with none of the date and time attributes. *)
Definition plain (v : value) : bool :=
  match v with
  | VDate _ | VTime _ | VDatetime _ _ => false
  | _ => true
  end.

Lemma predicates_on_plain (content converted : value) :
  convert content = Ok converted ->
  plain converted = true ->
  is_date content = Ok (py_and converted (VBool false)) /\
  is_time content = Raise (attribute_error converted "isoformat") /\
  is_datetime content = Ok (py_and converted (VBool false)).
Proof.
  intros H Hplain. unfold is_date, is_time, is_datetime. rewrite H.
  unfold py_and.
  destruct converted; try discriminate; cbn; try done;
    repeat match goal with |- context [if ?b then _ else _] => destruct b; cbn end; done.
Qed.

Lemma truthy_py_and (a : value) (b : bool) : truthy (py_and a (VBool b)) = truthy a && b.
Proof. unfold py_and. destruct (truthy a) eqn:E; simpl; [reflexivity | exact E]. Qed.

Lemma py_and_false_falsy (v : value) : truthy (py_and v (VBool false)) = false.
Proof. unfold py_and. destruct (truthy v) eqn:E; [reflexivity | exact E]. Qed.

Lemma attribute_error_caught (v : value) (name : string) :
  isinstance (attribute_error v name) AttributeError = true.
Proof. reflexivity. Qed.

(** *** Guessing by value *)

(** A rule matches a value when its test answers a true value; it is quiet
    on a value when its test answers a false value without raising. *)
Definition matches (g : rule) (v : value) : bool :=
  match func g v with
  | Ok passed => truthy passed
  | Raise _ => false
  end.

Definition quiet (g : rule) (v : value) : bool :=
  match func g v with
  | Ok passed => negb (truthy passed)
  | Raise _ => false
  end.

(** The type of the first rule of the chain that matches. *)
Definition first_match (guess_funcs : list rule) (v : value) : string :=
  match List.find (fun g => matches g v) guess_funcs with
  | Some g => rule_type g
  | None => ""
  end.

Lemma first_result_quiet (guess_funcs : list rule) (key : string) (v : value)
    (otherwise : result (option guess)) :
  forallb (fun g => quiet g v) guess_funcs = true ->
  first_result guess_funcs key v otherwise = otherwise.
Proof.
  induction guess_funcs as [| g gs IH]; simpl; [reflexivity |].
  intros [Hg Hgs]%andb_true_iff. unfold type_test. unfold quiet in Hg.
  destruct (func g v) as [passed | e]; [| discriminate].
  apply negb_true_iff in Hg. rewrite Hg. auto.
Qed.

Lemma generate_stops_at_raise {X : Type} (steps rest : list (result (option X))) (e : exn) :
  generate (steps ++ Raise e :: rest) = generate (steps ++ [Raise e]) /\
  ending (generate (steps ++ [Raise e])) <> None /\
  (length (yielded (generate (steps ++ [Raise e]))) <= length steps)%nat.
Proof.
  induction steps as [| [[x |] | e'] steps (IH1 & IH2 & IH3)]; simpl.
  - repeat split; [discriminate | lia].
  - rewrite IH1. repeat split; [exact IH2 | lia].
  - repeat split; [exact IH1 | exact IH2 | lia].
  - repeat split; [discriminate | lia].
Qed.

Lemma generate_results_then_raise {X : Type} (steps : list (result (option X)))
    (xs : list X) (e : exn) :
  Forall2 (fun step x => step = Ok (Some x)) steps xs ->
  generate (steps ++ [Raise e]) = mk_run xs (Some e).
Proof.
  induction 1 as [| step x steps xs -> _ IH]; simpl; [reflexivity |].
  rewrite IH. reflexivity.
Qed.

Section GuessFacts.

Variable blanks_as_nulls : bool.
Variable strip_zeros : bool.

Local Abbreviation rules := (value_guess_funcs blanks_as_nulls strip_zeros).
Local Abbreviation field_step :=
  (fun '(key, v) => guess_field blanks_as_nulls strip_zeros key v).

(** Put the sentinel comparisons of the goal in front of it, as booleans. *)
Ltac abstract_tests :=
  repeat match goal with
         | |- context [bool_decide ?P] => generalize (bool_decide P)
         | |- context [Z.eqb ?a ?b] => generalize (Z.eqb a b)
         end.

(** A time or date rule that matches is not preceded by a test that
    raises: the three predicates share their conversion. *)
Lemma guess_field_first_match (key : string) (v : value) :
  existsb (fun g => matches g v) (take 7 rules) = true ->
  guess_field blanks_as_nulls strip_zeros key v = Ok (Some (mk_guess key (first_match rules v))).
Proof.
  unfold guess_field, first_match, rules, value_guess_funcs, matches.
  cbn [take existsb List.find first_result func rule_type type_test].
  unfold type_test.
  generalize (is_null blanks_as_nulls v), (is_bool v), (is_int strip_zeros v),
    (is_numeric strip_zeros v), (has_lower v).
  intros b1 b2 b3 b4 b5.
  destruct (convert v) as [c | e] eqn:Hc.
  - destruct (plain c) eqn:Hplain.
    + destruct (predicates_on_plain _ _ Hc Hplain) as (-> & -> & ->).
      cbv beta iota. rewrite attribute_error_caught, !py_and_false_falsy.
      cbn [truthy]. destruct b1, b2, b3, b4; cbn; intros H; try reflexivity; discriminate.
    + destruct c; try discriminate.
      * destruct (predicates_on_date _ _ Hc) as (-> & -> & ->).
        cbv beta iota. unfold year_ne. cbn [truthy]. abstract_tests.
        intros y. destruct b1, b2, b3, b4, y; cbn; intros H; try reflexivity; discriminate.
      * destruct (predicates_on_time _ _ Hc) as (-> & -> & ->).
        cbv beta iota. unfold time_ne. rewrite !truthy_py_and. cbn [truthy]. abstract_tests.
        intros m z. destruct b1, b2, b3, b4, m, z; cbn; intros H; try reflexivity; discriminate.
      * destruct (predicates_on_datetime _ _ _ Hc) as (-> & -> & ->).
        cbv beta iota. unfold year_ne, time_ne. rewrite !truthy_py_and. cbn [truthy].
        abstract_tests.
        intros y z. destruct b1, b2, b3, b4, y, z; cbn; intros H; try reflexivity; discriminate.
  - destruct (predicates_on_raise _ _ Hc) as (-> & -> & ->).
    cbv beta iota. cbn [truthy].
    destruct b1, b2, b3, b4; cbn; intros H; try reflexivity; discriminate.
Qed.

(** C8, amended.  A value on which every rule of the chain is quiet (each
    test answers false without raising, and the value has no [lower]) makes
    [guess_type_by_value] fail with the [TypeError] of the source, an
    InvalidInput error: the generator yields results for earlier fields only
    and ends with an exception, which is that [TypeError] when every earlier
    field got a result.  A record whose values each match one of the rules
    null, bool, int, float, datetime, time, date gets, field by field, the
    type of the first rule that matches. *)
Theorem guess_type_by_value_first_match_or_type_error :
  (forall (before after : list (string * value)) (key : string) (v : value),
     forallb (fun g => quiet g v) rules = true ->
     let r := guess_type_by_value blanks_as_nulls strip_zeros (before ++ (key, v) :: after) in
     guess_field blanks_as_nulls strip_zeros key v = Raise (couldnt_guess v) /\
     spec_error_kind (couldnt_guess v) = Some InvalidInput /\
     ending r <> None /\
     (length (yielded r) <= length before)%nat /\
     (forall gs : list guess,
        Forall2 (fun field g => field_step field = Ok (Some g)) before gs ->
        r = mk_run gs (Some (couldnt_guess v)))) /\
  (forall record : list (string * value),
     Forall (fun '(_, v) => existsb (fun g => matches g v) (take 7 rules) = true) record ->
     guess_type_by_value blanks_as_nulls strip_zeros record
     = mk_run (map (fun '(key, v) => mk_guess key (first_match rules v)) record) None).
Proof.
  split.
  - intros before after key v Hquiet r.
    assert (guess_field blanks_as_nulls strip_zeros key v = Raise (couldnt_guess v)) as Hfield
      by (by apply first_result_quiet).
    assert (r = generate (map field_step before ++ [Raise (couldnt_guess v)])) as Hr.
    { subst r. unfold guess_type_by_value. rewrite map_app. cbn [map]. rewrite Hfield.
      apply generate_stops_at_raise. }
    split; [exact Hfield |]. split; [reflexivity |].
    rewrite Hr.
    destruct (generate_stops_at_raise (map field_step before) [] (couldnt_guess v))
      as (_ & Hend & Hlen).
    split; [exact Hend |]. split; [by rewrite length_map in Hlen |].
    intros gs Hgs. apply generate_results_then_raise.
    clear -Hgs. induction Hgs; simpl; constructor; auto.
  - intros record Hall. unfold guess_type_by_value.
    induction Hall as [| [key v] record Hv _ IH]; [reflexivity |].
    cbn [map]. rewrite (guess_field_first_match key v Hv). cbn [generate].
    rewrite IH. reflexivity.
Qed.

End GuessFacts.

(** *** Further properties of the predicates and of the guesser *)

(** [is_datetime] answers true exactly where [is_date] and [is_time] both
    answer true, whatever the converter; it has no other true answer. *)
Theorem is_datetime_iff_is_date_and_is_time (content : value) :
  (is_datetime content = Ok (VBool true)
   <-> is_date content = Ok (VBool true) /\ is_time content = Ok (VBool true)) /\
  (forall r, is_datetime content = Ok r -> truthy r = true -> r = VBool true).
Proof.
  destruct (convert content) as [c | e] eqn:Hc.
  - destruct (plain c) eqn:Hplain.
    + destruct (predicates_on_plain _ _ Hc Hplain) as (-> & -> & ->).
      split; [split |].
      * intros H. pose proof (py_and_false_falsy c) as Hf.
        injection H as H. rewrite H in Hf. discriminate.
      * intros [_ H]. discriminate.
      * intros r H Hr. injection H as <-. by rewrite py_and_false_falsy in Hr.
    + destruct c; try discriminate.
      * destruct (predicates_on_date _ _ Hc) as (-> & -> & ->).
        split; [split |]; [discriminate | intros [_ H]; discriminate |].
        intros r H Hr. injection H as <-. discriminate.
      * destruct (predicates_on_time _ _ Hc) as (-> & -> & ->).
        split; [split |].
        -- intros H. pose proof (py_and_false_falsy (VTime t)) as Hf.
           injection H as H. rewrite H in Hf. discriminate.
        -- intros [H _]. pose proof (py_and_false_falsy (VTime t)) as Hf.
           injection H as H. rewrite H in Hf. discriminate.
        -- intros r H Hr. injection H as <-. by rewrite py_and_false_falsy in Hr.
      * destruct (predicates_on_datetime _ _ _ Hc) as (-> & -> & ->).
        unfold year_ne, time_ne, py_and. cbn [truthy].
        destruct (negb (year d =? NULL_YEAR)), (negb (bool_decide (time_isoformat t = NULL_TIME)));
          (split; [split |]);
          try discriminate; try (intros [? ?]; discriminate); try (intros; split; reflexivity);
          try reflexivity; intros r H Hr; injection H as <-; try reflexivity; discriminate.
  - destruct (predicates_on_raise _ _ Hc) as (-> & -> & ->).
    split; [split |]; [discriminate | intros [H _]; discriminate | discriminate].
Qed.

(** On a content whose converted form has none of the date and time
    attributes (a number, a list, a text the converter leaves as it is),
    [is_date] and [is_datetime] answer a false value, but [is_time] raises
    the [AttributeError] of its last resort, [converted.isoformat()]. *)
Theorem is_time_raises_where_is_date_answers (content converted : value) :
  convert content = Ok converted ->
  plain converted = true ->
  (exists a, is_date content = Ok a /\ truthy a = false) /\
  (exists b, is_datetime content = Ok b /\ truthy b = false) /\
  (exists e, is_time content = Raise e /\ cls e = AttributeError).
Proof.
  intros Hc Hplain. destruct (predicates_on_plain _ _ Hc Hplain) as (-> & -> & ->).
  repeat split; eexists; (split; [reflexivity |]);
    [apply py_and_false_falsy | apply py_and_false_falsy | reflexivity].
Qed.

(** Such a content, when it is no null, boolean, integer or number, is
    given its runtime type by [guess_type_by_value]: the test of the time
    rule raises before the date and text rules are tried, so a content that
    has [lower] is not typed as text either. *)
Theorem plain_value_gets_runtime_type (blanks_as_nulls strip_zeros : bool) (key : string)
    (v converted : value) :
  is_null blanks_as_nulls v = false ->
  is_bool v = false ->
  is_int strip_zeros v = false ->
  is_numeric strip_zeros v = false ->
  convert v = Ok converted ->
  plain converted = true ->
  guess_type_by_value blanks_as_nulls strip_zeros [(key, v)]
  = mk_run [mk_guess key (real_type v)] None.
Proof.
  intros H1 H2 H3 H4 Hc Hplain.
  unfold guess_type_by_value, guess_field, value_guess_funcs.
  cbn [map first_result func rule_type]. unfold type_test.
  rewrite H1, H2, H3, H4.
  destruct (predicates_on_plain _ _ Hc Hplain) as (_ & -> & ->).
  cbv beta iota. rewrite attribute_error_caught, py_and_false_falsy. reflexivity.
Qed.


Lemma first_result_id (guess_funcs : list rule) (key : string) (v : value) (e : exn)
    (o : option guess) :
  first_result guess_funcs key v (Raise e) = Ok o -> exists t, o = Some (mk_guess key t).
Proof.
  induction guess_funcs as [| g gs IH]; cbn [first_result]; [discriminate |].
  unfold type_test. destruct (func g v) as [passed | e'].
  - destruct (truthy passed); [| exact IH]. intros H. injection H as <-. eauto.
  - destruct (isinstance e' AttributeError); [| discriminate].
    intros H. injection H as <-. eauto.
Qed.

(** [guess_type_by_value] yields its results in the order of the fields,
    each under the key of its field, one per field until it stops: the keys
    yielded are a prefix of the keys of the record, and the whole of them
    exactly when the generator ends without an exception. *)
Theorem guess_type_by_value_yields_fields_in_order (blanks_as_nulls strip_zeros : bool)
    (record : list (string * value)) :
  let r := guess_type_by_value blanks_as_nulls strip_zeros record in
  map id (yielded r) = take (length (yielded r)) record.*1 /\
  (ending r = None <-> length (yielded r) = length record).
Proof.
  unfold guess_type_by_value.
  induction record as [| [key v] record [IHids IHend]]; cbn [map].
  - split; [reflexivity | split; reflexivity].
  - destruct (guess_field blanks_as_nulls strip_zeros key v) as [o | e] eqn:Hfield.
    + destruct (first_result_id _ _ _ _ _ Hfield) as [t ->].
      cbn [generate yielded ending map length fmap list_fmap take fst].
      split.
      * f_equal. exact IHids.
      * rewrite IHend. split; [intros ->; reflexivity | intros H; by injection H].
    + cbn [generate yielded ending map length take]. split; [reflexivity |].
      split; discriminate.
Qed.

End ByValue.

(** *** Instances for the examples *)

Definition not_convertible (v : value) : exn :=
  mk_exn TypeError (type_repr v +:+ " cannot be converted to a datetime").

Definition sentinel_date : date := mk_date NULL_YEAR 12 31.

(** Modelled from the spec: [convert.to_datetime] (section 4.2), which
    normalises a text, a date, a time or a datetime into one datetime and
    fails with InvalidInput (a [TypeError]) on a content that cannot
    represent a date or a time.  A text goes through the date parser
    [parse]; the part a value lacks is filled with the sentinel (year 9999,
    time 00:00:00). *)
Definition to_datetime_spec (parse : string -> option (date * time)) (content : value)
    : result value :=
  match content with
  | VText s =>
      match parse s with
      | Some (d, t) => Ok (VDatetime d t)
      | None => Raise (not_convertible content)
      end
  | VDate d => Ok (VDatetime d midnight)
  | VTime t => Ok (VDatetime sentinel_date t)
  | VDatetime d t => Ok (VDatetime d t)
  | _ => Raise (not_convertible content)
  end.

(** The converter when it takes texts only: a date, a time or a datetime
    object raises the [TypeError] and is used as it is, which is how the
    branches commented [it's a date] and [it's a time] of [is_date] and
    [is_time] are reached. *)
Definition to_datetime_texts (parse : string -> option (date * time)) (content : value)
    : result value :=
  match content with
  | VText s =>
      match parse s with
      | Some (d, t) => Ok (VDatetime d t)
      | None => Raise (not_convertible content)
      end
  | _ => Raise (not_convertible content)
  end.

(** A parser that recognises nothing; the examples apply it to no text. *)
Definition no_parse (s : string) : option (date * time) := None.

(** Modelled from the spec: the predicates [is_null], [is_bool], [is_int]
    and [is_numeric] of [fntools] (section 4.1) on the values that are not
    texts: an absent value is null, a native boolean is a boolean, an
    integer or a whole float is an integer, an integer or a float is
    numeric.  What they answer on a text depends on vocabularies and on a
    numeral syntax that the spec leaves open; the examples apply them to no
    text. *)
Definition native_is_null (blanks_as_nulls : bool) (v : value) : bool :=
  match v with VNone => true | _ => false end.

Definition native_is_bool (v : value) : bool :=
  match v with VBool _ => true | _ => false end.

Definition native_is_int (strip_zeros : bool) (v : value) : bool :=
  match v with
  | VInt _ => true
  | VFloat q => bool_decide (Z.rem (Qnum q) (Z.pos (Qden q)) = 0)
  | _ => false
  end.

Definition native_is_numeric (strip_zeros : bool) (v : value) : bool :=
  match v with VInt _ | VFloat _ => true | _ => false end.

(** [str] on the values whose printed form is their ISO form or themselves. *)
Definition str_native (v : value) : string :=
  match v with
  | VNone => "None"
  | VBool true => "True"
  | VBool false => "False"
  | VText s => s
  | VDate d => date_isoformat d
  | VTime t => time_isoformat t
  | VDatetime d t => date_isoformat d +:+ " " +:+ time_isoformat t
  | _ => type_repr v
  end.

Definition guess_native : list (string * value) -> run guess :=
  guess_type_by_value native_is_null native_is_bool native_is_int native_is_numeric
    (to_datetime_texts no_parse) str_native true false.

(** The second docstring example of [guess_type_by_value], without its text. *)
Lemma guess_type_by_value_docstring :
  guess_native
    [("null", VNone); ("bool", VBool false); ("int", VInt 10); ("float", VFloat (3 # 2));
     ("date", VDate (mk_date 1982 5 4)); ("time", VTime (mk_time 2 30 0 0));
     ("datetime", VDatetime (mk_date 1982 5 4) (mk_time 2 0 0 0))]
  = mk_run [mk_guess "null" "null"; mk_guess "bool" "bool"; mk_guess "int" "int";
            mk_guess "float" "float"; mk_guess "date" "date"; mk_guess "time" "time";
            mk_guess "datetime" "datetime"] None.
Proof. vm_compute. reflexivity. Qed.

(** The docstring examples of the three predicates on objects. *)
Lemma predicates_docstring :
  let is_date := is_date (to_datetime_texts no_parse) in
  let is_time := is_time (to_datetime_texts no_parse) in
  let is_datetime := is_datetime (to_datetime_texts no_parse) in
  let d := mk_date 1982 5 4 in
  is_date (VDatetime d (mk_time 2 0 0 0)) = Ok (VBool true) /\
  is_date (VDate d) = Ok (VBool true) /\
  is_date (VTime (mk_time 2 30 0 0)) = Ok (VBool false) /\
  is_time (VDatetime d (mk_time 2 0 0 0)) = Ok (VBool true) /\
  is_time (VDate d) = Ok (VBool false) /\
  is_time (VTime (mk_time 2 30 0 0)) = Ok (VBool true) /\
  is_datetime (VDatetime d (mk_time 2 0 0 0)) = Ok (VBool true) /\
  is_datetime (VDate d) = Ok (VBool false) /\
  is_datetime (VTime (mk_time 2 30 0 0)) = Ok (VBool false).
Proof. vm_compute. repeat split. Qed.

(** A parser for the texts of the docstrings: a part that the text lacks
    is filled with the sentinel. *)
Definition docstring_parse (s : string) : option (date * time) :=
  if bool_decide (s = "5/4/82") then Some (mk_date 1982 5 4, midnight)
  else if bool_decide (s = "2pm") then Some (sentinel_date, mk_time 14 0 0 0)
  else if bool_decide (s = "5/4/82 2pm") then Some (mk_date 1982 5 4, mk_time 14 0 0 0)
  else None.

(** The texts of the docstrings, and a date and a time object off the
    sentinels under the converter that leaves them as they are. *)
Lemma date_time_predicates_agree_off_sentinels_witness :
  (is_date (to_datetime_spec docstring_parse) (VText "5/4/82") = Ok (VBool true) /\
   is_time (to_datetime_spec docstring_parse) (VText "5/4/82") = Ok (VBool false) /\
   is_datetime (to_datetime_spec docstring_parse) (VText "5/4/82") = Ok (VBool false)) /\
  (is_date (to_datetime_spec docstring_parse) (VText "2pm") = Ok (VBool false) /\
   is_time (to_datetime_spec docstring_parse) (VText "2pm") = Ok (VBool true) /\
   is_datetime (to_datetime_spec docstring_parse) (VText "2pm") = Ok (VBool false)) /\
  (is_date (to_datetime_spec docstring_parse) (VText "5/4/82 2pm") = Ok (VBool true) /\
   is_time (to_datetime_spec docstring_parse) (VText "5/4/82 2pm") = Ok (VBool true) /\
   is_datetime (to_datetime_spec docstring_parse) (VText "5/4/82 2pm") = Ok (VBool true)) /\
  (is_date (to_datetime_texts no_parse) (VDate (mk_date 1982 5 4)) = Ok (VBool true) /\
   is_time (to_datetime_texts no_parse) (VDate (mk_date 1982 5 4)) = Ok (VBool false) /\
   is_datetime (to_datetime_texts no_parse) (VDate (mk_date 1982 5 4)) = Ok (VBool false)) /\
  (is_date (to_datetime_texts no_parse) (VTime (mk_time 2 30 0 0)) = Ok (VBool false) /\
   is_time (to_datetime_texts no_parse) (VTime (mk_time 2 30 0 0)) = Ok (VBool true) /\
   is_datetime (to_datetime_texts no_parse) (VTime (mk_time 2 30 0 0)) = Ok (VBool false)).
Proof.
  repeat apply conj.
  1-3: destruct (date_time_predicates_agree_off_sentinels (to_datetime_spec docstring_parse)
                   (VText "5/4/82") (VDatetime (mk_date 1982 5 4) midnight) eq_refl)
         as (_ & H & _);
       apply (H (mk_date 1982 5 4) midnight eq_refl); [discriminate | reflexivity].
  1-3: destruct (date_time_predicates_agree_off_sentinels (to_datetime_spec docstring_parse)
                   (VText "2pm") (VDatetime sentinel_date (mk_time 14 0 0 0)) eq_refl)
         as (_ & _ & _ & H & _);
       apply (H sentinel_date (mk_time 14 0 0 0) eq_refl); [reflexivity | discriminate].
  1-3: destruct (date_time_predicates_agree_off_sentinels (to_datetime_spec docstring_parse)
                   (VText "5/4/82 2pm") (VDatetime (mk_date 1982 5 4) (mk_time 14 0 0 0)) eq_refl)
         as (_ & _ & _ & _ & H);
       apply (H (mk_date 1982 5 4) (mk_time 14 0 0 0) eq_refl); discriminate.
  1-3: destruct (date_time_predicates_agree_off_sentinels (to_datetime_texts no_parse)
                   (VDate (mk_date 1982 5 4)) (VDate (mk_date 1982 5 4)) eq_refl)
         as (H & _);
       apply (H (mk_date 1982 5 4) eq_refl); discriminate.
  1-3: destruct (date_time_predicates_agree_off_sentinels (to_datetime_texts no_parse)
                   (VTime (mk_time 2 30 0 0)) (VTime (mk_time 2 30 0 0)) eq_refl)
         as (_ & _ & H & _);
       apply (H (mk_time 2 30 0 0) eq_refl); discriminate.
Defined.

(** C7 as stated fails on the sentinels: the date 9999-12-31 is not a date
    for [is_date], and the time 00:00:00 is not a time for [is_time], under
    either converter. *)
Lemma sentinel_date_is_no_date_sentinel_time_is_no_time :
  is_date (to_datetime_spec no_parse) (VDate (mk_date 9999 12 31)) = Ok (VBool false) /\
  is_date (to_datetime_texts no_parse) (VDate (mk_date 9999 12 31)) = Ok (VBool false) /\
  is_time (to_datetime_spec no_parse) (VTime (mk_time 0 0 0 0)) = Ok (VBool false) /\
  is_time (to_datetime_texts no_parse) (VTime (mk_time 0 0 0 0)) = Ok (VTime (mk_time 0 0 0 0)) /\
  truthy (VTime (mk_time 0 0 0 0)) = false.
Proof. vm_compute. repeat split. Qed.

(** Midnight is quiet on every rule and has no [lower]: the call fails. *)
Lemma guess_type_by_value_first_match_or_type_error_witness :
  guess_native [("opens", VTime (mk_time 9 0 0 0)); ("closes", VTime midnight)]
  = mk_run [mk_guess "opens" "time"]
      (Some (mk_exn TypeError "Couldn't guess type of '00:00:00'")).
Proof.
  destruct (guess_type_by_value_first_match_or_type_error native_is_null native_is_bool
              native_is_int native_is_numeric (to_datetime_texts no_parse) str_native
              true false) as [Hfail _].
  destruct (Hfail [("opens", VTime (mk_time 9 0 0 0))] [] "closes" (VTime midnight) eq_refl)
    as (_ & _ & _ & _ & Hrun).
  apply (Hrun [mk_guess "opens" "time"]).
  repeat constructor.
Defined.

(** C8 as stated fails on a list: no rule from null to date matches it and
    it has no [lower], yet the test of the time rule raises an
    [AttributeError], so the field is given its runtime type and the call
    does not fail. *)
Lemma list_value_gets_runtime_type :
  let v := VObject "<type 'list'>" true in
  let rules := value_guess_funcs native_is_null native_is_bool native_is_int
                 native_is_numeric (to_datetime_texts no_parse) true false in
  existsb (fun g => matches g v) (take 7 rules) = false /\
  has_lower v = false /\
  guess_native [("tags", v)] = mk_run [mk_guess "tags" "list"] None /\
  guess_type_by_value native_is_null native_is_bool native_is_int native_is_numeric
    (to_datetime_spec no_parse) str_native true false [("tags", v)]
  = mk_run [mk_guess "tags" "list"] None.
Proof. vm_compute. repeat split. Qed.

(** *** Examples of the further properties *)

Lemma is_time_raises_where_is_date_answers_witness :
  (exists a, is_date (to_datetime_texts no_parse) (VFloat (3 # 2)) = Ok a /\ truthy a = false) /\
  (exists b, is_datetime (to_datetime_texts no_parse) (VFloat (3 # 2)) = Ok b /\
             truthy b = false) /\
  (exists e, is_time (to_datetime_texts no_parse) (VFloat (3 # 2)) = Raise e /\
             cls e = AttributeError).
Proof.
  exact (is_time_raises_where_is_date_answers (to_datetime_texts no_parse)
           (VFloat (3 # 2)) (VFloat (3 # 2)) eq_refl eq_refl).
Defined.

(** A dict is typed [dict]. *)
Lemma plain_value_gets_runtime_type_witness :
  guess_native [("meta", VObject "<type 'dict'>" true)] = mk_run [mk_guess "meta" "dict"] None.
Proof.
  exact (plain_value_gets_runtime_type native_is_null native_is_bool native_is_int
           native_is_numeric (to_datetime_texts no_parse) str_native true false "meta"
           (VObject "<type 'dict'>" true) (VObject "<type 'dict'>" true)
           eq_refl eq_refl eq_refl eq_refl eq_refl eq_refl).
Defined.


End Typetools.
